(** * Alumni-Sphere backend: real-time room layer and e-mail service

    A shallow embedding of the socket wiring of the server entry point
    (the [io.use] / [io.on("connection")] block) and of
    [config/emailService.js], with the properties stated about them. *)

From Stdlib Require Import ZArith List Ascii String.
From stdpp Require Import base option gmap strings list fin_maps fin_sets.

#[local] Set Warnings "-clear-no-such-hyp".

Local Open Scope string_scope.
Local Open Scope list_scope.

(** Identifiers are JavaScript strings throughout. *)
Abbreviation ConnId := string (only parsing).
Abbreviation UserId := string (only parsing).
Abbreviation RoomId := string (only parsing).
Abbreviation ConvId := string (only parsing).

(** ** Room Membership Index *)

Module Index.

(** Modelled from the spec: the Room Membership Index (section 4.3).  The
    server keeps it inside the socket.io library, whose code is not part of
    the repository sources; [join], [leave] and [membersOf] follow the
    operations the spec lists for it. *)
Definition membersOf (room : RoomId) (idx : gmap RoomId (gset ConnId))
  : gset ConnId :=
  default ∅ (idx !! room).

(** Modelled from the spec: [join(roomId, connectionId)] adds the connection
    to the room's member set and creates the room entry if absent. *)
Definition join (room : RoomId) (cid : ConnId)
    (idx : gmap RoomId (gset ConnId)) : gmap RoomId (gset ConnId) :=
  <[room := membersOf room idx ∪ {[cid]}]> idx.

(** Modelled from the spec: [leave(roomId, connectionId)] removes the
    connection; if the member set becomes empty the room entry is deleted. *)
Definition leave (room : RoomId) (cid : ConnId)
    (idx : gmap RoomId (gset ConnId)) : gmap RoomId (gset ConnId) :=
  match idx !! room with
  | None => idx
  | Some members =>
      let members' := members ∖ {[cid]} in
      if decide (members' = ∅) then delete room idx
      else <[room := members']> idx
  end.

(** What remains of a room entry once a connection is taken out of it. *)
Definition without (cid : ConnId) (members : gset ConnId)
  : option (gset ConnId) :=
  if decide (members ∖ {[cid]} = ∅) then None else Some (members ∖ {[cid]}).

(** A room exists only as an entry while it has at least one member. *)
Definition wf (idx : gmap RoomId (gset ConnId)) : Prop :=
  ∀ room, idx !! room ≠ Some ∅.

End Index.

(** ** Connection Registry *)

Record Connection := mkConnection {
  userId : UserId;
  rooms : gset RoomId
}.

Module Registry.

(** Modelled from the spec: [register(connectionId, userId)] inserts a new
    live entry and fails if the connection identifier is already present
    (section 4.2).  The registry is socket.io's table of live sockets. *)
Definition register (cid : ConnId) (uid : UserId)
    (reg : gmap ConnId Connection) : option (gmap ConnId Connection) :=
  match reg !! cid with
  | Some _ => None
  | None => Some (<[cid := mkConnection uid ∅]> reg)
  end.

(** Modelled from the spec: [lookup(connectionId)] gives the user
    identifier or not-found. *)
Definition lookup (cid : ConnId) (reg : gmap ConnId Connection)
  : option UserId :=
  userId <$> reg !! cid.

(** Modelled from the spec: [unregister(connectionId)] removes the entry and
    returns its final room set; on an absent connection it is a no-op. *)
Definition unregister (cid : ConnId) (reg : gmap ConnId Connection)
  : gmap ConnId Connection * gset RoomId :=
  (delete cid reg, default ∅ (rooms <$> reg !! cid)).

(** Modelled from the spec: the room set of a connection grows and shrinks
    via join and leave (section 3, Connection). *)
Definition enter (room : RoomId) (cid : ConnId)
    (reg : gmap ConnId Connection) : gmap ConnId Connection :=
  alter (λ c, mkConnection (userId c) (rooms c ∪ {[room]})) cid reg.

Definition exit (room : RoomId) (cid : ConnId)
    (reg : gmap ConnId Connection) : gmap ConnId Connection :=
  alter (λ c, mkConnection (userId c) (rooms c ∖ {[room]})) cid reg.

Definition roomsOf (cid : ConnId) (reg : gmap ConnId Connection)
  : gset RoomId :=
  default ∅ (rooms <$> reg !! cid).

End Registry.

(** ** The shared room state and the operations on it *)

Record Server := mkServer {
  registry : gmap ConnId Connection;
  index : gmap RoomId (gset ConnId)
}.

Definition initial : Server := mkServer ∅ ∅.

(** What the server does that is observable from outside the room state:
    console lines, calls into the room layer, refusals and deliveries. *)
Inductive Action :=
| ALog (line : string)
| AJoin (cid : ConnId) (room : RoomId)
| ALeave (cid : ConnId) (room : RoomId)
| AConnectError (cid : ConnId)
| ADeliver (cid : ConnId) (kind payload : string).

Module Rooms.

Definition membersOf (room : RoomId) (st : Server) : gset ConnId :=
  Index.membersOf room (index st).

Definition roomsOf (cid : ConnId) (st : Server) : gset RoomId :=
  Registry.roomsOf cid (registry st).

(** Modelled from the spec: registration of an authenticated connection;
    a second registration of the same identifier is a defect and fails. *)
Definition register (cid : ConnId) (uid : UserId) (st : Server)
  : option Server :=
  reg ← Registry.register cid uid (registry st);
  Some (mkServer reg (index st)).

(** Modelled from the spec: [unregister] only touches the registry and hands
    the final room set to its caller. *)
Definition unregister (cid : ConnId) (st : Server) : Server * gset RoomId :=
  let '(reg, final) := Registry.unregister cid (registry st) in
  (mkServer reg (index st), final).

(** Modelled from the spec: a join updates both sides of the membership
    (section 3); a connection that is not live has nothing executed on its
    behalf (section 5). *)
Definition join (room : RoomId) (cid : ConnId) (st : Server) : Server :=
  match registry st !! cid with
  | None => st
  | Some _ =>
      mkServer (Registry.enter room cid (registry st))
               (Index.join room cid (index st))
  end.

(** Modelled from the spec: a leave likewise updates both sides, and is not
    executed for a connection that is not live. *)
Definition leave (room : RoomId) (cid : ConnId) (st : Server) : Server :=
  match registry st !! cid with
  | None => st
  | Some _ =>
      mkServer (Registry.exit room cid (registry st))
               (Index.leave room cid (index st))
  end.

(** Modelled from the spec: disconnect cleanup (section 4.6): [unregister]
    returns the final room set and [leave] of the index is called for each
    room in it. *)
Definition evict (cid : ConnId) (final : gset RoomId)
    (idx : gmap RoomId (gset ConnId)) : gmap RoomId (gset ConnId) :=
  set_fold (λ room acc, Index.leave room cid acc) idx final.

Definition disconnect (cid : ConnId) (st : Server) : Server :=
  let '(st1, final) := unregister cid st in
  mkServer (registry st1) (evict cid final (index st1)).

(** Modelled from the spec: [dispatch(roomId, eventKind, payload)] looks up
    [membersOf(roomId)] and delivers the event to each (section 4.7).  Route
    handlers reach it through the [io] object stored on the application. *)
Definition dispatch (room : RoomId) (kind payload : string) (st : Server)
  : list Action :=
  (λ cid, ADeliver cid kind payload) <$> elements (membersOf room st).

(** Membership recorded on the registry side and on the index side. *)
Definition in_registry (cid : ConnId) (room : RoomId) (st : Server) : Prop :=
  ∃ c, registry st !! cid = Some c ∧ room ∈ rooms c.

Definition in_index (cid : ConnId) (room : RoomId) (st : Server) : Prop :=
  ∃ members, index st !! room = Some members ∧ cid ∈ members.

Definition symmetric (st : Server) : Prop :=
  ∀ cid room, in_registry cid room st ↔ in_index cid room st.

Definition consistent (st : Server) : Prop :=
  symmetric st ∧ Index.wf (index st).

End Rooms.

(** ** The socket handlers of the server entry point *)

(** The part of a socket the handlers read: its identifier and the user
    identifier the authentication middleware stored on it. *)
Record Socket := mkSocket {
  socket_id : ConnId;
  socket_userId : UserId
}.

(** A handler body runs against the shared room state and leaves a trail. *)
Definition Handler := Server → Server * list Action.

Definition skip : Handler := λ st, (st, []).

Definition andThen (h1 h2 : Handler) : Handler :=
  λ st, let '(st1, out1) := h1 st in
        let '(st2, out2) := h2 st1 in
        (st2, out1 ++ out2).

Notation "h1 >>> h2" := (andThen h1 h2) (at level 65, right associativity).

Definition console_log (line : string) : Handler :=
  λ st, (st, [ALog line]).

(** [socket.join(room)] and [socket.leave(room)]. *)
Definition socket_join (socket : Socket) (room : RoomId) : Handler :=
  λ st, (Rooms.join room (socket_id socket) st, [AJoin (socket_id socket) room]).

Definition socket_leave (socket : Socket) (room : RoomId) : Handler :=
  λ st, (Rooms.leave room (socket_id socket) st, [ALeave (socket_id socket) room]).

(** The body of [io.on("connection", (socket) => ...)] up to the registration
    of the three listeners. *)
Definition onConnection (socket : Socket) : Handler :=
  console_log ("User " +:+ socket_userId socket +:+ " connected") >>>
  socket_join socket ("user_" +:+ socket_userId socket).

(** [socket.on("joinConversation", ...)]. *)
Definition onJoinConversation (socket : Socket) (conversationId : ConvId)
  : Handler :=
  socket_join socket ("conversation_" +:+ conversationId).

(** [socket.on("leaveConversation", ...)]. *)
Definition onLeaveConversation (socket : Socket) (conversationId : ConvId)
  : Handler :=
  socket_leave socket ("conversation_" +:+ conversationId).

(** [socket.on("disconnect", ...)]. *)
Definition onDisconnect (socket : Socket) : Handler :=
  console_log ("User " +:+ socket_userId socket +:+ " disconnected").

(** What reaches the server. *)
Inductive Event :=
| EConnect (cid : ConnId) (token : option string)
| EJoinConversation (cid : ConnId) (conversationId : ConvId)
| ELeaveConversation (cid : ConnId) (conversationId : ConvId)
| EDisconnect (cid : ConnId)
| EDispatch (room : RoomId) (kind payload : string).

Definition is_join (a : Action) : bool :=
  match a with
  | AJoin _ _ => true
  | _ => false
  end.

(** Room logic run for, or events delivered to, a given connection. *)
Definition concerns (cid : ConnId) (a : Action) : bool :=
  match a with
  | AJoin cid' _ | ALeave cid' _ | ADeliver cid' _ _ => bool_decide (cid' = cid)
  | ALog _ | AConnectError _ => false
  end.

Definition is_error (a : Action) : bool :=
  match a with
  | AConnectError _ => true
  | _ => false
  end.

(** Modelled from the spec: the participancy-check collaborator (section 6),
    the external data store asked "is user U a participant of conversation
    C?", which answers with a boolean or not-found. *)
Definition isParticipant (store : gmap ConvId (gset UserId))
    (uid : UserId) (conversationId : ConvId) : option bool :=
  (λ participants, bool_decide (uid ∈ participants)) <$> store !! conversationId.

Section Transport.

(** Modelled from the spec: the Identity Verifier (section 4.1),
    [socketAuth] of [middleware/auth], which is not among the sources.  It
    resolves the credential presented at the handshake to a user identifier
    or rejects the connection. *)
Variable socketAuth : option string → option UserId.

(** Modelled from the spec: [io.use(socketAuth)] followed by the connection
    handler.  A rejected credential refuses the connection before the
    registry or any room logic is reached; an accepted one registers the
    connection and runs the handler. *)
Definition connect (cid : ConnId) (token : option string) : Handler :=
  λ st,
    match socketAuth token with
    | None => (st, [AConnectError cid])
    | Some uid =>
        match Rooms.register cid uid st with
        | None => (st, [])
        | Some st1 => onConnection (mkSocket cid uid) st1
        end
    end.

(** The listeners exist only on sockets that went through the connection
    handler, so a message is processed only for a live connection. *)
Definition withSocket (cid : ConnId) (body : Socket → Handler) : Handler :=
  λ st,
    match registry st !! cid with
    | None => (st, [])
    | Some c => body (mkSocket cid (userId c)) st
    end.

(** Modelled from the spec: on transport close the room layer releases all
    memberships, after which the [disconnect] listener runs. *)
Definition close (cid : ConnId) : Handler :=
  withSocket cid (λ socket,
    (λ st, (Rooms.disconnect cid st, [])) >>> onDisconnect socket).

Definition step (ev : Event) : Handler :=
  match ev with
  | EConnect cid token => connect cid token
  | EJoinConversation cid conversationId =>
      withSocket cid (λ socket, onJoinConversation socket conversationId)
  | ELeaveConversation cid conversationId =>
      withSocket cid (λ socket, onLeaveConversation socket conversationId)
  | EDisconnect cid => close cid
  | EDispatch room kind payload =>
      λ st, (st, Rooms.dispatch room kind payload st)
  end.

Fixpoint run (evs : list Event) : Handler :=
  match evs with
  | [] => skip
  | ev :: rest => step ev >>> run rest
  end.

Definition reachable (st : Server) : Prop :=
  ∃ evs, (run evs initial).1 = st.

End Transport.

(** ** A concrete deployment used in the examples *)

Module Scenario.

Definition socketAuth (token : option string) : option UserId :=
  match token with
  | Some "token-U1" => Some "U1"
  | Some "token-U2" => Some "U2"
  | _ => None
  end.

(** Conversation [c7] exists and has [U2] as its only participant. *)
Definition store : gmap ConvId (gset UserId) := {[ "c7" := {[ "U2" ]} ]}.

(** Connection [A] of user [U1] is live. *)
Definition connectedA : Server :=
  (run socketAuth [EConnect "A" (Some "token-U1")] initial).1.

(** Connection [A] is alone in [conversation_42]. *)
Definition aloneIn42 : Server :=
  (run socketAuth [EConnect "A" (Some "token-U1");
                   EJoinConversation "A" "42"] initial).1.

(** Two users, three connections, two conversation rooms with overlapping
    but distinct membership. *)
Definition twoRooms : Server :=
  (run socketAuth [EConnect "A" (Some "token-U1");
                   EConnect "B" (Some "token-U2");
                   EConnect "C" (Some "token-U2");
                   EJoinConversation "A" "c7";
                   EJoinConversation "B" "c7";
                   EJoinConversation "B" "c8";
                   EJoinConversation "C" "c8"] initial).1.

End Scenario.

(** ** JavaScript numbers and strings used by the e-mail service *)

Module Js.

(** [Number.prototype.toString()] on an integer: its decimal digits, most
    significant first, with a minus sign when negative. *)
Definition digitChar (d : Z) : ascii := ascii_of_N (48 + Z.to_N d).

Fixpoint decimal (fuel : nat) (n : Z) (acc : string) : string :=
  match fuel with
  | O => acc
  | S fuel' =>
      let acc' := String (digitChar (n mod 10)) acc in
      if (n / 10 =? 0)%Z then acc' else decimal fuel' (n / 10) acc'
  end.

Definition toString (n : Z) : string :=
  if (n <? 0)%Z
  then String "-" (decimal (S (Z.to_nat (Z.log2 (- n)))) (- n) "")
  else decimal (S (Z.to_nat (Z.log2 n))) n "".

(** Reading a string of decimal digits back as a number. *)
Definition digitValue (c : ascii) : option Z :=
  let code := Z.of_N (N_of_ascii c) in
  if ((48 <=? code) && (code <=? 57))%Z then Some (code - 48)%Z else None.

Fixpoint numericValueFrom (acc : Z) (s : string) : option Z :=
  match s with
  | EmptyString => Some acc
  | String c rest =>
      match digitValue c with
      | Some d => numericValueFrom (10 * acc + d) rest
      | None => None
      end
  end.

Definition isDigit (c : ascii) : bool :=
  match digitValue c with
  | Some _ => true
  | None => false
  end.

Fixpoint allDigits (s : string) : bool :=
  match s with
  | EmptyString => true
  | String c rest => isDigit c && allDigits rest
  end.

Definition numericValue (s : string) : option Z :=
  match s with
  | EmptyString => None
  | _ => numericValueFrom 0 s
  end.

(** [crypto.randomInt(min, max)] returns an integer [n] with
    [min <= n < max]; the value drawn from the generator is made explicit. *)
Definition randomInt (min max : Z) (draw : Z) : Z :=
  (min + draw mod (max - min))%Z.

(** [a || b] on a value that is a string or [undefined]. *)
Definition truthy (v : option string) : bool :=
  match v with
  | Some s => negb (String.eqb s "")
  | None => false
  end.

Definition orElse (v : option string) (fallback : string) : string :=
  match v with
  | Some s => if String.eqb s "" then fallback else s
  | None => fallback
  end.

(** [`${v}`] on a value that is a string or [undefined]. *)
Definition interpolate (v : option string) : string :=
  default "undefined" v.

End Js.

(** ** config/emailService.js *)

Module EmailService.

Record Env := mkEnv {
  SENDGRID_API_KEY : option string;
  SENDGRID_FROM_EMAIL : option string;
  EMAIL_USER : option string
}.

Record Msg := mkMsg {
  msg_to : string;
  msg_from : string;
  msg_subject : string;
  msg_html : string
}.

(** The error object a failed send rejects with. *)
Record SendError := mkSendError {
  error_message : option string;
  error_response : option string
}.

Inductive LogArg :=
| Text (s : string)
| ErrorObject (e : SendError)
| ResponseBody (body : string)
| MessageId (id : string).

Inductive Effect :=
| ConsoleLog (args : list LogArg)
| ConsoleError (args : list LogArg)
| SgMailSend (msg : Msg)
| TransporterSendMail (mailOptions : Msg).

(** The objects the exported functions return. *)
Record Result := mkResult {
  success : bool;
  error : option string
}.

Inductive JsError :=
| ReferenceError (message : string)
| TypeError (message : string).

Inductive Promise (A : Type) :=
| Fulfilled (value : A)
| Rejected (reason : JsError).
Arguments Fulfilled {A} value.
Arguments Rejected {A} reason.

Record Alumni := mkAlumni {
  alumni_name : string;
  alumni_email : string;
  alumni_batch : string;
  alumni_branch : string;
  alumni_location : string
}.

Definition dq : string := String "034"%char EmptyString.

Definition registrationHtml (otp : string) : string :=
  String.concat "" [
      "
        <div style="; dq; "font-family: Arial, sans-serif; max-width: 600px; margin: 0 auto;"; dq; ">
          <h2 style="; dq; "color: #333;"; dq; ">Welcome to Alumni Platform!</h2>
          <p>Thank you for registering. Please verify your email address using the OTP below:</p>
          <div style="; dq; "background: #f4f4f4; padding: 20px; text-align: center; margin: 20px 0;"; dq; ">
            <h1 style="; dq; "color: #007bff; font-size: 36px; margin: 0;"; dq; ">"; otp; "</h1>
          </div>
          <p>This OTP will expire in 10 minutes.</p>
          <p>If you didn't request this, please ignore this email.</p>
        </div>
      "
  ].

Definition forgotPasswordHtml (otp : string) : string :=
  String.concat "" [
      "
        <div style="; dq; "font-family: Arial, sans-serif; max-width: 600px; margin: 0 auto;"; dq; ">
          <h2 style="; dq; "color: #333;"; dq; ">Password Reset Request</h2>
          <p>You requested to reset your password. Use the OTP below to proceed:</p>
          <div style="; dq; "background: #f4f4f4; padding: 20px; text-align: center; margin: 20px 0;"; dq; ">
            <h1 style="; dq; "color: #dc3545; font-size: 36px; margin: 0;"; dq; ">"; otp; "</h1>
          </div>
          <p>This OTP will expire in 10 minutes.</p>
          <p>If you didn't request this, please ignore this email and your password will remain unchanged.</p>
        </div>
      "
  ].

Definition emailVerificationHtml (otp : string) : string :=
  String.concat "" [
      "
        <div style="; dq; "font-family: Arial, sans-serif; max-width: 600px; margin: 0 auto;"; dq; ">
          <h2 style="; dq; "color: #333;"; dq; ">Email Verification</h2>
          <p>Please verify your email address using the OTP below:</p>
          <div style="; dq; "background: #f4f4f4; padding: 20px; text-align: center; margin: 20px 0;"; dq; ">
            <h1 style="; dq; "color: #28a745; font-size: 36px; margin: 0;"; dq; ">"; otp; "</h1>
          </div>
          <p>This OTP will expire in 10 minutes.</p>
          <p>If you didn't request this, please ignore this email.</p>
        </div>
      "
  ].

(** The identifiers a call inside the module can resolve: the module's own
    top-level [const] bindings, then the parameters of Node's module wrapper
    and the globals the file uses. *)
Definition moduleBindings : list string :=
  ["sgMail"; "crypto"; "verifySendGridConfig"; "generateOTP"; "sendOTPEmail";
   "sendAdminApprovalEmail"].

Definition nodeBindings : list string :=
  ["exports"; "require"; "module"; "__filename"; "__dirname"; "process";
   "console"].

Definition resolves (locals : list string) (name : string) : bool :=
  bool_decide (name ∈ locals ++ moduleBindings ++ nodeBindings).

Definition is_send (e : Effect) : bool :=
  match e with
  | SgMailSend _ | TransporterSendMail _ => true
  | _ => false
  end.

Definition validTypes : list string :=
  ["registration"; "forgot_password"; "email_verification"].

(** [generateOTP]. *)
Definition generateOTP (draw : Z) : string :=
  Js.toString (Js.randomInt 100000 999999 draw).

Section WithEnvironment.

Variable env : Env.

(** The outcome of [sgMail.send(msg)]: fulfilled, or rejected with an error. *)
Variable sgMail_send : Msg → option SendError.

(** [verifySendGridConfig]. *)
Definition verifySendGridConfig : bool * list Effect :=
  let out :=
    [ConsoleLog [Text "Verifying SendGrid configuration:"];
     ConsoleLog [Text "SENDGRID_API_KEY:";
                 Text (if Js.truthy (SENDGRID_API_KEY env)
                       then "[SET]" else "[NOT SET]")];
     ConsoleLog [Text "SENDGRID_FROM_EMAIL:";
                 Text (Js.orElse (SENDGRID_FROM_EMAIL env) "Not set")]] in
  if negb (Js.truthy (SENDGRID_API_KEY env)) then
    (false,
     out ++ [ConsoleError
               [Text "Error: SENDGRID_API_KEY is not set in environment variables"]])
  else if negb (Js.truthy (SENDGRID_FROM_EMAIL env)) then
    (true,
     out ++ [ConsoleError
               [Text "Warning: SENDGRID_FROM_EMAIL is not set, using default from email"]])
  else (true, out).

(** The [switch (type)] of [sendOTPEmail]: subject and body of the three
    known kinds, nothing for the [default] case. *)
Definition otpTemplate (type otp : string) : option (string * string) :=
  if String.eqb type "registration" then
    Some ("Verify Your Email - Alumni Platform", registrationHtml otp)
  else if String.eqb type "forgot_password" then
    Some ("Reset Your Password - Alumni Platform", forgotPasswordHtml otp)
  else if String.eqb type "email_verification" then
    Some ("Verify Your Email - Alumni Platform", emailVerificationHtml otp)
  else None.

(** [sendOTPEmail]. *)
Definition sendOTPEmail (email otp type : string) : Result * list Effect :=
  let '(configured, out0) := verifySendGridConfig in
  if negb configured then
    (mkResult false
       (Some "SendGrid is not properly configured. Please check your environment variables."),
     out0)
  else
    match otpTemplate type otp with
    | None => (mkResult false (Some "Invalid email type specified"), out0)
    | Some (subject, html) =>
        let msg :=
          mkMsg email
                (Js.orElse (SENDGRID_FROM_EMAIL env) "noreply@alumniplatform.com")
                subject html in
        let out1 :=
          out0 ++ [ConsoleLog [Text "Attempting to send email to:"; Text email];
                   ConsoleLog [Text "Email subject:"; Text subject];
                   SgMailSend msg] in
        match sgMail_send msg with
        | None =>
            (mkResult true None,
             out1 ++ [ConsoleLog [Text "Email sent successfully"]])
        | Some err =>
            (mkResult false
               (Some (Js.orElse (error_message err) "Failed to send email")),
             out1 ++ [ConsoleError [Text "Email sending failed:"; ErrorObject err]]
                  ++ match error_response err with
                     | Some body =>
                         [ConsoleError [Text "Error response body:";
                                        ResponseBody body]]
                     | None => []
                     end)
        end
    end.

(** The body of the admin notification. *)
Definition adminApprovalHtml (alumni : Alumni) : string :=
  String.concat "" [
      "
    <div style="; dq; "font-family: Arial, sans-serif; max-width: 600px; margin: 0 auto;"; dq; ">
      <h2 style="; dq; "color: #333;"; dq; ">New Alumni Registration Request</h2>
      <p>A new alumni has registered and is awaiting your approval:</p>
      <ul>
        <li><strong>Name:</strong> "; alumni_name alumni; "</li>
        <li><strong>Email:</strong> "; alumni_email alumni; "</li>
        <li><strong>Batch:</strong> "; alumni_batch alumni; "</li>
        <li><strong>Branch:</strong> "; alumni_branch alumni; "</li>
        <li><strong>Location:</strong> "; alumni_location alumni; "</li>
      </ul>
      <p>Please log in to the admin dashboard to approve or reject this request.</p>
    </div>
  "
  ].

(** What [transporter.sendMail(mailOptions)] would answer: a message
    identifier, or an error. *)
Variable transporter_sendMail : Msg → string + SendError.

(** [sendAdminApprovalEmail].  Its first statement calls [createTransporter],
    an identifier that is resolved against the function's parameters and
    locals, the module bindings and Node's own; an unresolved identifier
    throws, which rejects the promise of the [async] function. *)
Definition sendAdminApprovalEmail (adminEmail : string) (alumni : Alumni)
  : Promise Result * list Effect :=
  if negb (resolves ["adminEmail"; "alumni"] "createTransporter") then
    (Rejected (ReferenceError "createTransporter is not defined"), [])
  else
    let subject := "New Alumni Registration Pending Approval" in
    let html := adminApprovalHtml alumni in
    let mailOptions :=
      mkMsg adminEmail
            ("Alumni Platform <" +:+ Js.interpolate (EMAIL_USER env) +:+ ">")
            subject html in
    match transporter_sendMail mailOptions with
    | inl messageId =>
        (Fulfilled (mkResult true None),
         [TransporterSendMail mailOptions;
          ConsoleLog [Text "Admin approval email sent:"; MessageId messageId]])
    | inr err =>
        (Fulfilled (mkResult false (error_message err)),
         [TransporterSendMail mailOptions;
          ConsoleError [Text "Admin approval email failed:"; ErrorObject err]])
    end.

End WithEnvironment.

End EmailService.

(** ** config/database.js *)

Module Database.

Record ConnectOptions := mkConnectOptions {
  useNewUrlParser : bool;
  useUnifiedTopology : bool;
  serverSelectionTimeoutMS : Z;
  socketTimeoutMS : Z
}.

(** [conn.connection], as far as the function reads it. *)
Record MongoConnection := mkMongoConnection {
  connection_host : string;
  connection_name : string
}.

Inductive Effect :=
| ConsoleLog (args : list string)
| ConsoleError (args : list string)
| MongooseConnect (uri : string) (options : ConnectOptions)
| ConnectionOn (event : string)
| ProcessExit (code : Z).

(** How a call ends: with the connection it returns, or in [process.exit]. *)
Inductive Outcome :=
| Returned (conn : MongoConnection)
| Exited (code : Z).

Definition is_connect (e : Effect) : bool :=
  match e with
  | MongooseConnect _ _ => true
  | _ => false
  end.

Definition is_console (e : Effect) : bool :=
  match e with
  | ConsoleLog _ | ConsoleError _ => true
  | _ => false
  end.

Section WithMongoose.

(** [process.env]. *)
Variable env : gmap string string.

(** The outcome of [mongoose.connect(uri, options)]: the connection, or a
    rejection with the message of its error. *)
Variable mongoose_connect : string → ConnectOptions → MongoConnection + string.

Definition options : ConnectOptions :=
  mkConnectOptions true true 5000 45000.

(** The [catch] block. *)
Definition connectionFailed (message : string) : Outcome * list Effect :=
  (Exited 1,
   [ConsoleError ["Database connection failed:"; message];
    ConsoleError ["Connection URI used:";
                  if Js.truthy (env !! "MONGO_URI") then "[HIDDEN]" else "Not set"];
    ProcessExit 1]).

(** [connectDB]. *)
Definition connectDB : Outcome * list Effect :=
  if negb (Js.truthy (env !! "MONGO_URI")) then
    connectionFailed
      "MongoDB connection string is not defined. Please set MONGO_URI environment variable."
  else
    let uri := default "" (env !! "MONGO_URI") in
    let out0 :=
      [ConsoleLog ["Connecting to MongoDB..."]; MongooseConnect uri options] in
    match mongoose_connect uri options with
    | inl conn =>
        (Returned conn,
         out0 ++
         [ConsoleLog ["MongoDB Connected: " +:+ connection_host conn];
          ConsoleLog ["Database Name: " +:+ connection_name conn];
          ConnectionOn "error";
          ConnectionOn "disconnected"])
    | inr message =>
        let '(outcome, out) := connectionFailed message in
        (outcome, out0 ++ out)
    end.

End WithMongoose.

End Database.

(** ** The start-up checks and the CORS policy of the server entry point *)

Module ServerEntry.

Inductive Effect :=
| ConsoleLog (args : list string)
| ConsoleError (args : list string)
| ProcessExit (code : Z).

Definition requiredEnvVars : list string :=
  ["MONGO_URI"; "JWT_SECRET"; "NODE_ENV"].

(** [requiredEnvVars.filter(varName => !process.env[varName])]. *)
Definition missingVars (env : gmap string string) : list string :=
  List.filter (λ varName, negb (Js.truthy (env !! varName))) requiredEnvVars.

(** The check on [missingVars.length]; no effect when nothing is missing. *)
Definition verifyEnvironment (env : gmap string string) : list Effect :=
  if (0 <? length (missingVars env))%nat then
    [ConsoleError ["ERROR: Missing required environment variables:";
                   String.concat ", " (missingVars env)];
     ProcessExit 1]
  else [].

(** The environment summary logged after the check; [nodeVersion] is
    [process.version]. *)
Definition environmentInfo (env : gmap string string) (nodeVersion : string)
  : list Effect :=
  [ConsoleLog ["Environment:"];
   ConsoleLog ["- NODE_ENV:"; Js.interpolate (env !! "NODE_ENV")];
   ConsoleLog ["- Node Version:"; nodeVersion];
   ConsoleLog ["- Database:";
               if Js.truthy (env !! "MONGO_URI")
               then "Configured" else "Not configured"];
   ConsoleLog ["- Frontend URL:"; Js.orElse (env !! "FRONTEND_URL") "Not set"];
   ConsoleLog ["- Email Service:";
               Js.orElse (env !! "EMAIL_SERVICE") "Not configured"]].

(** [[...].filter(Boolean)] on entries that are strings or [undefined]. *)
Definition filterBoolean (entries : list (option string)) : list string :=
  omap (λ entry, if Js.truthy entry then entry else None) entries.

Definition allowedOrigins (env : gmap string string) : list string :=
  filterBoolean [env !! "FRONTEND_URL";
                 Some "http://localhost:3000";
                 Some "http://127.0.0.1:3000"].

(** What the [origin] function of [corsOptions] hands to its callback:
    [callback(null, true)] or [callback(new Error(message))]. *)
Inductive CorsDecision :=
| Allow
| Deny (message : string).

(** [corsOptions.origin]. *)
Definition corsOrigin (env : gmap string string) (origin : option string)
  : CorsDecision :=
  if negb (Js.truthy origin) then Allow
  else if bool_decide (env !! "NODE_ENV" = Some "development") then Allow
  else if bool_decide (default "" origin ∈ allowedOrigins env) then Allow
  else Deny "Not allowed by CORS".

End ServerEntry.

(** ** Concrete environments used in the examples *)

Module Deployment.

Definition production : gmap string string :=
  {[ "MONGO_URI" := "mongodb://db.internal/alumni";
     "JWT_SECRET" := "first-secret";
     "NODE_ENV" := "production";
     "FRONTEND_URL" := "https://alumni.example.org" ]}.

(** The same deployment after its database and its signing secret moved. *)
Definition rotated : gmap string string :=
  <["JWT_SECRET" := "second-secret"]>
    (<["MONGO_URI" := "mongodb://replica.internal/alumni"]> production).

Definition unconfigured : gmap string string :=
  {[ "NODE_ENV" := "production" ]}.

Definition mongoose_up (uri : string) (options : Database.ConnectOptions)
  : Database.MongoConnection + string :=
  inl (Database.mkMongoConnection "db.internal" "alumni").

Definition mail : EmailService.Env :=
  EmailService.mkEnv (Some "SG.key") None None.

Definition mailUnconfigured : EmailService.Env :=
  EmailService.mkEnv (Some "") (Some "noreply@example.org") None.

End Deployment.

(** ** Further notions used in the properties *)

(** The console part of what the e-mail service does. *)
Definition consoleOnly (out : list EmailService.Effect)
  : list EmailService.Effect :=
  List.filter (λ e, negb (EmailService.is_send e)) out.

(** The personal room of a user holds exactly that user's live connections. *)
Definition personalRoomsExact (st : Server) : Prop :=
  ∀ cid uid,
    cid ∈ Rooms.membersOf ("user_" +:+ uid) st ↔
    Registry.lookup cid (registry st) = Some uid.

(** * Properties *)

(** ** Room Membership Index *)

Section IndexFacts.
Implicit Types (idx : gmap string (gset string)) (room cid : string).

Lemma membersOf_join room cid room' idx :
  Index.membersOf room' (Index.join room cid idx) =
  if decide (room = room') then Index.membersOf room idx ∪ {[cid]}
  else Index.membersOf room' idx.
Proof.
  unfold Index.join, Index.membersOf. rewrite lookup_insert.
  by destruct (decide (room = room')) as [->|].
Qed.

Lemma lookup_leave room cid room' idx :
  Index.leave room cid idx !! room' =
  if decide (room = room') then idx !! room ≫= Index.without cid else idx !! room'.
Proof.
  unfold Index.leave, Index.without.
  destruct (idx !! room) as [members|] eqn:E; simpl.
  - destruct (decide (members ∖ {[cid]} = ∅)).
    + rewrite lookup_delete. by destruct (decide (room = room')).
    + rewrite lookup_insert. by destruct (decide (room = room')).
  - by destruct (decide (room = room')) as [<-|].
Qed.

Lemma join_idem room cid idx :
  Index.join room cid (Index.join room cid idx) = Index.join room cid idx.
Proof.
  unfold Index.join at 1. rewrite membersOf_join, decide_True by done.
  unfold Index.join. rewrite insert_insert_eq. f_equal. set_solver.
Qed.

Lemma join_iter n room cid idx :
  Nat.iter (S n) (Index.join room cid) idx = Index.join room cid idx.
Proof.
  induction n as [|n IH]; [done|].
  change (Nat.iter (S (S n)) (Index.join room cid) idx)
    with (Index.join room cid (Nat.iter (S n) (Index.join room cid) idx)).
  by rewrite IH, join_idem.
Qed.

Lemma leave_absent room cid idx :
  Index.wf idx → cid ∉ Index.membersOf room idx → Index.leave room cid idx = idx.
Proof.
  intros Hwf Hnot. unfold Index.leave, Index.membersOf in *.
  destruct (idx !! room) as [members|] eqn:E; [|done]. simpl in *.
  assert (members ∖ {[cid]} = members) as -> by set_solver.
  destruct (decide (members = ∅)) as [->|].
  - by destruct (Hwf room).
  - by apply insert_id.
Qed.

Lemma leave_idem room cid idx :
  Index.leave room cid (Index.leave room cid idx) = Index.leave room cid idx.
Proof.
  apply map_eq. intros room'. rewrite !lookup_leave.
  destruct (decide (room = room')) as [<-|]; [|done].
  rewrite decide_True by done.
  destruct (idx !! room) as [members|]; simpl; [|done].
  unfold Index.without.
  destruct (decide (members ∖ {[cid]} = ∅)) as [E|E]; simpl; [done|].
  assert (members ∖ {[cid]} ∖ {[cid]} = members ∖ {[cid]}) as -> by set_solver.
  by rewrite decide_False.
Qed.

Lemma wf_join room cid idx : Index.wf idx → Index.wf (Index.join room cid idx).
Proof.
  intros Hwf room'. unfold Index.join. rewrite lookup_insert.
  case_decide; [|apply Hwf]. intros [=]. set_solver.
Qed.

Lemma wf_leave room cid idx : Index.wf idx → Index.wf (Index.leave room cid idx).
Proof.
  intros Hwf room'. rewrite lookup_leave.
  case_decide; [|apply Hwf]. subst.
  destruct (idx !! room') as [members|]; simpl; [|done].
  unfold Index.without. case_decide; [done|]. by intros [=].
Qed.

End IndexFacts.

(** ** Registry and index together *)

Section RoomsFacts.
Implicit Types (st : Server) (idx : gmap string (gset string))
  (reg : gmap string Connection) (room cid : string).

Lemma membersOf_leave room cid room' idx :
  Index.membersOf room' (Index.leave room cid idx) =
  if decide (room = room') then Index.membersOf room idx ∖ {[cid]}
  else Index.membersOf room' idx.
Proof.
  unfold Index.membersOf. rewrite lookup_leave.
  destruct (decide (room = room')) as [<-|]; [|done].
  destruct (idx !! room) as [members|]; simpl; [|set_solver].
  unfold Index.without. by destruct (decide (members ∖ {[cid]} = ∅)) as [->|].
Qed.

Lemma lookup_evict cid final idx room :
  Rooms.evict cid final idx !! room =
  if decide (room ∈ final) then idx !! room ≫= Index.without cid
  else idx !! room.
Proof.
  unfold Rooms.evict.
  refine (set_fold_ind_L (λ acc (X : gset string), acc !! room =
    if decide (room ∈ X) then idx !! room ≫= Index.without cid else idx !! room)
    _ _ _ _ final).
  - by rewrite decide_False by set_solver.
  - intros room0 X acc Hfresh IH. rewrite lookup_leave.
    destruct (decide (room0 = room)) as [->|Hne].
    + rewrite decide_True by set_solver.
      by rewrite IH, decide_False.
    + rewrite IH. destruct (decide (room ∈ X)).
      * by rewrite decide_True by set_solver.
      * by rewrite decide_False by set_solver.
Qed.

Lemma membersOf_without cid (entry : option (gset string)) :
  default ∅ (entry ≫= Index.without cid) = default ∅ entry ∖ {[cid]}.
Proof.
  destruct entry as [members|]; simpl; [|set_solver].
  unfold Index.without. by destruct (decide (members ∖ {[cid]} = ∅)) as [->|].
Qed.

Lemma membersOf_evict cid final idx room :
  Index.membersOf room (Rooms.evict cid final idx) =
  if decide (room ∈ final) then Index.membersOf room idx ∖ {[cid]}
  else Index.membersOf room idx.
Proof.
  unfold Index.membersOf. rewrite lookup_evict.
  destruct (decide (room ∈ final)); [|done]. apply membersOf_without.
Qed.

Lemma wf_evict cid final idx : Index.wf idx → Index.wf (Rooms.evict cid final idx).
Proof.
  intros Hwf. unfold Rooms.evict.
  refine (set_fold_ind_L (λ acc (_ : gset string), Index.wf acc) _ _ _ _ final);
    [done|].
  intros. by apply wf_leave.
Qed.

(** Membership read off either side. *)
Lemma in_registry_roomsOf cid room st :
  Rooms.in_registry cid room st ↔ room ∈ Rooms.roomsOf cid st.
Proof.
  unfold Rooms.in_registry, Rooms.roomsOf, Registry.roomsOf.
  destruct (registry st !! cid) as [c|]; simpl.
  - split; [by intros (? & [= <-] & ?)|eauto].
  - split; [by intros (? & ? & ?)|set_solver].
Qed.

Lemma in_index_membersOf cid room st :
  Rooms.in_index cid room st ↔ cid ∈ Rooms.membersOf room st.
Proof.
  unfold Rooms.in_index, Rooms.membersOf, Index.membersOf.
  destruct (index st !! room) as [members|]; simpl.
  - split; [by intros (? & [= <-] & ?)|eauto].
  - split; [by intros (? & ? & ?)|set_solver].
Qed.

Lemma symmetric_alt st :
  Rooms.symmetric st ↔
  ∀ cid room, room ∈ Rooms.roomsOf cid st ↔ cid ∈ Rooms.membersOf room st.
Proof.
  unfold Rooms.symmetric. split; intros H cid room.
  - by rewrite <-in_registry_roomsOf, <-in_index_membersOf.
  - by rewrite in_registry_roomsOf, in_index_membersOf.
Qed.

Lemma roomsOf_unregistered cid st :
  registry st !! cid = None → Rooms.roomsOf cid st = ∅.
Proof. unfold Rooms.roomsOf, Registry.roomsOf. by intros ->. Qed.

Lemma roomsOf_enter room cid cid' reg :
  Registry.roomsOf cid' (Registry.enter room cid reg) =
  if decide (cid = cid' ∧ is_Some (reg !! cid))
  then Registry.roomsOf cid reg ∪ {[room]} else Registry.roomsOf cid' reg.
Proof.
  unfold Registry.roomsOf, Registry.enter. rewrite lookup_alter.
  destruct (decide (cid = cid')) as [<-|].
  - destruct (reg !! cid) as [c|]; simpl.
    + by rewrite decide_True by eauto.
    + rewrite decide_False; [done|]. by intros [_ [? [=]]].
  - rewrite decide_False; [done|]. by intros [? _].
Qed.

Lemma roomsOf_exit room cid cid' reg :
  Registry.roomsOf cid' (Registry.exit room cid reg) =
  if decide (cid = cid')
  then Registry.roomsOf cid reg ∖ {[room]} else Registry.roomsOf cid' reg.
Proof.
  unfold Registry.roomsOf, Registry.exit. rewrite lookup_alter.
  destruct (decide (cid = cid')) as [<-|]; [|done].
  destruct (reg !! cid) as [c|]; simpl; [done|set_solver].
Qed.

Lemma symmetric_join room cid st :
  Rooms.symmetric st → Rooms.symmetric (Rooms.join room cid st).
Proof.
  rewrite !symmetric_alt. intros Hsym cid' room'.
  unfold Rooms.join. destruct (registry st !! cid) as [c|] eqn:E; [|apply Hsym].
  unfold Rooms.roomsOf, Rooms.membersOf; simpl.
  rewrite roomsOf_enter, membersOf_join.
  specialize (Hsym cid' room'). unfold Rooms.roomsOf, Rooms.membersOf in Hsym.
  destruct (decide (cid = cid' ∧ is_Some (registry st !! cid))) as [[<- _]|Hno];
    destruct (decide (room = room')) as [<-|]; set_solver.
Qed.

Lemma symmetric_leave room cid st :
  Rooms.symmetric st → Rooms.symmetric (Rooms.leave room cid st).
Proof.
  rewrite !symmetric_alt. intros Hsym cid' room'.
  unfold Rooms.leave. destruct (registry st !! cid) as [c|] eqn:E; [|apply Hsym].
  unfold Rooms.roomsOf, Rooms.membersOf; simpl.
  rewrite roomsOf_exit, membersOf_leave.
  specialize (Hsym cid' room'). unfold Rooms.roomsOf, Rooms.membersOf in Hsym.
  destruct (decide (cid = cid')) as [<-|];
    destruct (decide (room = room')) as [<-|]; set_solver.
Qed.

Lemma symmetric_register cid uid st st' :
  Rooms.symmetric st → Rooms.register cid uid st = Some st' → Rooms.symmetric st'.
Proof.
  rewrite !symmetric_alt. intros Hsym Hreg cid' room.
  unfold Rooms.register, Registry.register in Hreg.
  destruct (registry st !! cid) as [c|] eqn:E; simplify_eq/=.
  specialize (Hsym cid' room).
  unfold Rooms.roomsOf, Registry.roomsOf, Rooms.membersOf in *; simpl.
  rewrite lookup_insert. destruct (decide (cid = cid')) as [<-|]; [|done].
  rewrite E in Hsym. simpl in *. done.
Qed.

Lemma registry_disconnect cid st :
  registry (Rooms.disconnect cid st) = delete cid (registry st).
Proof. done. Qed.

Lemma index_disconnect cid st :
  index (Rooms.disconnect cid st) =
  Rooms.evict cid (Rooms.roomsOf cid st) (index st).
Proof. done. Qed.

Lemma membersOf_disconnect cid st room :
  Rooms.symmetric st →
  Rooms.membersOf room (Rooms.disconnect cid st) = Rooms.membersOf room st ∖ {[cid]}.
Proof.
  rewrite symmetric_alt. intros Hsym.
  unfold Rooms.membersOf at 1. rewrite index_disconnect, membersOf_evict.
  destruct (decide (room ∈ Rooms.roomsOf cid st)) as [|Hno]; [done|].
  rewrite Hsym in Hno. unfold Rooms.membersOf in *. set_solver.
Qed.

Lemma roomsOf_disconnect cid cid' st :
  Rooms.roomsOf cid' (Rooms.disconnect cid st) =
  if decide (cid = cid') then ∅ else Rooms.roomsOf cid' st.
Proof.
  unfold Rooms.roomsOf, Registry.roomsOf. rewrite registry_disconnect, lookup_delete.
  by destruct (decide (cid = cid')).
Qed.

Lemma symmetric_disconnect cid st :
  Rooms.symmetric st → Rooms.symmetric (Rooms.disconnect cid st).
Proof.
  intros Hsym. apply symmetric_alt. intros cid' room.
  rewrite roomsOf_disconnect, membersOf_disconnect by done.
  pose proof (proj1 (symmetric_alt st) Hsym cid' room).
  destruct (decide (cid = cid')) as [<-|]; set_solver.
Qed.

Lemma lookup_index_disconnect cid st room :
  Rooms.consistent st →
  index (Rooms.disconnect cid st) !! room = index st !! room ≫= Index.without cid.
Proof.
  intros [Hsym Hwf]. rewrite index_disconnect, lookup_evict.
  destruct (decide (room ∈ Rooms.roomsOf cid st)) as [|Hno]; [done|].
  rewrite (proj1 (symmetric_alt st) Hsym) in Hno.
  unfold Rooms.membersOf, Index.membersOf in Hno.
  destruct (index st !! room) as [members|] eqn:E; simpl in *; [|done].
  unfold Index.without.
  assert (members ∖ {[cid]} = members) as -> by set_solver.
  rewrite decide_False; [done|]. intros ->. by destruct (Hwf room).
Qed.

Lemma consistent_initial : Rooms.consistent initial.
Proof.
  split.
  - intros cid room. unfold Rooms.in_registry, Rooms.in_index. simpl.
    split; intros (? & H & _); by rewrite lookup_empty in H.
  - intros room. simpl. by rewrite lookup_empty.
Qed.

Lemma consistent_join room cid st :
  Rooms.consistent st → Rooms.consistent (Rooms.join room cid st).
Proof.
  intros [Hsym Hwf]. split; [by apply symmetric_join|].
  unfold Rooms.join. destruct (registry st !! cid); [|done]. by apply wf_join.
Qed.

Lemma consistent_leave room cid st :
  Rooms.consistent st → Rooms.consistent (Rooms.leave room cid st).
Proof.
  intros [Hsym Hwf]. split; [by apply symmetric_leave|].
  unfold Rooms.leave. destruct (registry st !! cid); [|done]. by apply wf_leave.
Qed.

Lemma consistent_register cid uid st st' :
  Rooms.consistent st → Rooms.register cid uid st = Some st' → Rooms.consistent st'.
Proof.
  intros [Hsym Hwf] Hreg. split; [by eapply symmetric_register|].
  unfold Rooms.register in Hreg.
  destruct (Registry.register cid uid (registry st)); by simplify_eq/=.
Qed.

Lemma consistent_disconnect cid st :
  Rooms.consistent st → Rooms.consistent (Rooms.disconnect cid st).
Proof.
  intros [Hsym Hwf]. split; [by apply symmetric_disconnect|].
  rewrite index_disconnect. by apply wf_evict.
Qed.

End RoomsFacts.

(** ** Handlers and the event loop *)

Section TransportFacts.
Variable socketAuth : option string → option string.
Implicit Types (st : Server) (ev : Event) (evs : list Event) (room cid : string).

Lemma andThen_fst (h1 h2 : Handler) st :
  (andThen h1 h2 st).1 = (h2 (h1 st).1).1.
Proof.
  unfold andThen. destruct (h1 st) as [st1 out1]; simpl. by destruct (h2 st1).
Qed.

Lemma andThen_snd (h1 h2 : Handler) st :
  (andThen h1 h2 st).2 = (h1 st).2 ++ (h2 (h1 st).1).2.
Proof.
  unfold andThen. destruct (h1 st) as [st1 out1]; simpl. by destruct (h2 st1).
Qed.

Lemma run_app evs1 evs2 st :
  run socketAuth (evs1 ++ evs2) st =
  (run socketAuth evs1 >>> run socketAuth evs2) st.
Proof.
  revert st. induction evs1 as [|ev evs1 IH]; intros st; simpl.
  - unfold andThen, skip. by destruct (run socketAuth evs2 st).
  - unfold andThen. destruct (step socketAuth ev st) as [st1 out1].
    rewrite IH. unfold andThen.
    destruct (run socketAuth evs1 st1) as [st2 out2].
    destruct (run socketAuth evs2 st2) as [st3 out3].
    by rewrite app_assoc.
Qed.

Lemma connect_accepted cid token uid st :
  socketAuth token = Some uid → registry st !! cid = None →
  connect socketAuth cid token st =
  (Rooms.join ("user_" +:+ uid) cid
     (mkServer (<[cid := mkConnection uid ∅]> (registry st)) (index st)),
   [ALog ("User " +:+ uid +:+ " connected"); AJoin cid ("user_" +:+ uid)]).
Proof.
  intros Hauth Hnew. unfold connect, Rooms.register, Registry.register.
  by rewrite Hauth, Hnew.
Qed.

Lemma connect_refused cid token st :
  socketAuth token = None →
  connect socketAuth cid token st = (st, [AConnectError cid]).
Proof. intros Hauth. unfold connect. by rewrite Hauth. Qed.

Lemma withSocket_absent cid body st :
  registry st !! cid = None → withSocket cid body st = (st, []).
Proof. intros Hnone. unfold withSocket. by rewrite Hnone. Qed.

Lemma close_state cid st :
  (close cid st).1 =
  match registry st !! cid with
  | Some _ => Rooms.disconnect cid st
  | None => st
  end.
Proof.
  unfold close, withSocket. destruct (registry st !! cid); [|done].
  by rewrite andThen_fst.
Qed.

Lemma step_consistent ev st :
  Rooms.consistent st → Rooms.consistent (step socketAuth ev st).1.
Proof.
  intros Hc. destruct ev as [cid token|cid conv|cid conv|cid|room kind payload];
    simpl; [| | | |done].
  - unfold connect. destruct (socketAuth token) as [uid|]; [|done].
    destruct (Rooms.register cid uid st) as [st1|] eqn:Hreg; [|done].
    apply consistent_join. by eapply consistent_register.
  - unfold withSocket. destruct (registry st !! cid); [|done].
    by apply consistent_join.
  - unfold withSocket. destruct (registry st !! cid); [|done].
    by apply consistent_leave.
  - unfold close, withSocket. destruct (registry st !! cid); [|done].
    by apply consistent_disconnect.
Qed.

Lemma run_consistent evs st :
  Rooms.consistent st → Rooms.consistent (run socketAuth evs st).1.
Proof.
  revert st. induction evs as [|ev evs IH]; intros st Hc; [done|].
  simpl. rewrite andThen_fst. by apply IH, step_consistent.
Qed.

Lemma reachable_consistent st : reachable socketAuth st → Rooms.consistent st.
Proof. intros [evs <-]. apply run_consistent, consistent_initial. Qed.

(** A connection that is not live is in no room. *)
Lemma unregistered_no_member cid room st :
  Rooms.symmetric st → registry st !! cid = None → cid ∉ Rooms.membersOf room st.
Proof.
  intros Hsym Hnone. rewrite <-(proj1 (symmetric_alt st) Hsym).
  rewrite roomsOf_unregistered by done. set_solver.
Qed.

Lemma registry_join_other room cid cid' st :
  cid ≠ cid' → registry (Rooms.join room cid st) !! cid' = registry st !! cid'.
Proof.
  intros Hne. unfold Rooms.join. destruct (registry st !! cid); [|done].
  simpl. unfold Registry.enter. rewrite lookup_alter. by rewrite decide_False.
Qed.

Lemma registry_leave_other room cid cid' st :
  cid ≠ cid' → registry (Rooms.leave room cid st) !! cid' = registry st !! cid'.
Proof.
  intros Hne. unfold Rooms.leave. destruct (registry st !! cid); [|done].
  simpl. unfold Registry.exit. rewrite lookup_alter. by rewrite decide_False.
Qed.

Lemma dispatch_concerns room kind payload cid st :
  cid ∉ Rooms.membersOf room st →
  List.filter (concerns cid) (Rooms.dispatch room kind payload st) = [].
Proof.
  intros Hnot. unfold Rooms.dispatch.
  assert (Forall (λ cid', cid' ≠ cid) (elements (Rooms.membersOf room st))) as Hall.
  { apply Forall_forall. intros cid' Hin%elem_of_elements. by intros ->. }
  induction Hall as [|cid' rest Hne _ IH]; [done|].
  simpl. by rewrite bool_decide_eq_false_2.
Qed.

(** One step on behalf of other connections leaves a connection that is not
    live untouched and runs nothing for it. *)
Lemma step_unregistered ev cid st :
  Rooms.symmetric st → registry st !! cid = None →
  (∀ token, ev = EConnect cid token → socketAuth token = None) →
  registry (step socketAuth ev st).1 !! cid = None ∧
  List.filter (concerns cid) (step socketAuth ev st).2 = [].
Proof.
  intros Hsym Hnone Hrefused.
  destruct ev as [cid' token|cid' conv|cid' conv|cid'|room kind payload]; simpl.
  - destruct (socketAuth token) as [uid|] eqn:Hauth;
      [|by rewrite connect_refused].
    assert (cid' ≠ cid) as Hne.
    { intros ->. specialize (Hrefused token eq_refl). congruence. }
    destruct (registry st !! cid') as [c|] eqn:E.
    + unfold connect, Rooms.register, Registry.register. by rewrite Hauth, E.
    + rewrite (connect_accepted cid' token uid) by done. simpl.
      rewrite registry_join_other by done. simpl.
      rewrite lookup_insert_ne by done. split; [done|].
      by rewrite bool_decide_eq_false_2.
  - unfold withSocket. destruct (registry st !! cid') as [c|] eqn:E; [|done].
    assert (cid' ≠ cid) as Hne by congruence. simpl.
    rewrite registry_join_other by done. split; [done|].
    by rewrite bool_decide_eq_false_2.
  - unfold withSocket. destruct (registry st !! cid') as [c|] eqn:E; [|done].
    assert (cid' ≠ cid) as Hne by congruence. simpl.
    rewrite registry_leave_other by done. split; [done|].
    by rewrite bool_decide_eq_false_2.
  - unfold close, withSocket. destruct (registry st !! cid') as [c|] eqn:E; [|done].
    assert (cid' ≠ cid) as Hne by congruence.
    rewrite andThen_fst, andThen_snd. simpl.
    by rewrite lookup_delete_ne.
  - split; [done|]. by apply dispatch_concerns, unregistered_no_member.
Qed.

Lemma run_unregistered evs cid st :
  Rooms.consistent st → registry st !! cid = None →
  (∀ token, EConnect cid token ∈ evs → socketAuth token = None) →
  registry (run socketAuth evs st).1 !! cid = None ∧
  List.filter (concerns cid) (run socketAuth evs st).2 = [].
Proof.
  revert st. induction evs as [|ev evs IH]; intros st Hc Hnone Hrefused; [done|].
  simpl. rewrite andThen_fst, andThen_snd.
  destruct (step_unregistered ev cid st) as [Hreg Hout]; [apply Hc|done|..].
  { intros token ->. apply Hrefused. set_solver. }
  destruct (IH (step socketAuth ev st).1) as [Hreg' Hout'];
    [by apply step_consistent|done|..].
  { intros token Hin. apply Hrefused. set_solver. }
  split; [done|]. by rewrite List.filter_app, Hout, Hout'.
Qed.

End TransportFacts.

(** ** The claims about the room layer *)

Section RoomClaims.
Variable socketAuth : option string → option string.
Implicit Types (st : Server) (ev : Event) (evs : list Event) (room cid : string).

Lemma enter_idem room cid (reg : gmap string Connection) :
  Registry.enter room cid (Registry.enter room cid reg) = Registry.enter room cid reg.
Proof.
  apply map_eq. intros cid'. unfold Registry.enter. rewrite !lookup_alter.
  destruct (decide (cid = cid')) as [<-|]; [|done].
  rewrite decide_True by done.
  destruct (reg !! cid) as [c|]; simpl; [|done].
  do 2 f_equal. set_solver.
Qed.

Lemma rooms_join_idem room cid st :
  Rooms.join room cid (Rooms.join room cid st) = Rooms.join room cid st.
Proof.
  unfold Rooms.join at 2. destruct (registry st !! cid) as [c|] eqn:E.
  - unfold Rooms.join. simpl. unfold Registry.enter at 1.
    rewrite lookup_alter, decide_True, E by done. simpl.
    by rewrite enter_idem, join_idem.
  - unfold Rooms.join. by rewrite E.
Qed.

Lemma rooms_leave_absent room cid st :
  Rooms.consistent st → cid ∉ Rooms.membersOf room st → Rooms.leave room cid st = st.
Proof.
  intros [Hsym Hwf] Hnot. unfold Rooms.leave.
  destruct (registry st !! cid) as [c|] eqn:E; [|done].
  destruct st as [reg idx]. simpl in *. f_equal.
  - unfold Registry.exit. apply alter_id. intros c' Hc'.
    assert (room ∉ rooms c') as Hroom.
    { intros Hin. apply Hnot. apply in_index_membersOf, Hsym. by exists c'. }
    destruct c' as [uid rs]. simpl in *. f_equal. set_solver.
  - by apply leave_absent.
Qed.

Lemma step_symmetric ev st :
  Rooms.symmetric st → Rooms.symmetric (step socketAuth ev st).1.
Proof.
  intros Hsym. destruct ev as [cid token|cid conv|cid conv|cid|room kind payload];
    simpl; [| | | |done].
  - unfold connect. destruct (socketAuth token) as [uid|]; [|done].
    destruct (Rooms.register cid uid st) as [st1|] eqn:Hreg; [|done].
    apply symmetric_join. by eapply symmetric_register.
  - unfold withSocket. destruct (registry st !! cid); [|done].
    by apply symmetric_join.
  - unfold withSocket. destruct (registry st !! cid); [|done].
    by apply symmetric_leave.
  - unfold close, withSocket. destruct (registry st !! cid); [|done].
    by apply symmetric_disconnect.
Qed.

(** C1, as amended.  A [joinConversation(conversationId)] request on a live
    connection is admitted unconditionally: the handler joins the connection
    to the room [conversation_<conversationId>] on both sides of the
    membership, touches no other room, consults nothing else, and surfaces no
    error to the caller. *)
Theorem joinConversation_admits_unconditionally st cid c (conv : string) :
  registry st !! cid = Some c →
  ∃ st',
    step socketAuth (EJoinConversation cid conv) st =
      (st', [AJoin cid ("conversation_" +:+ conv)]) ∧
    cid ∈ Rooms.membersOf ("conversation_" +:+ conv) st' ∧
    "conversation_" +:+ conv ∈ Rooms.roomsOf cid st' ∧
    (∀ room, room ≠ "conversation_" +:+ conv →
       Rooms.membersOf room st' = Rooms.membersOf room st) ∧
    List.filter is_error
      (step socketAuth (EJoinConversation cid conv) st).2 = [].
Proof.
  intros Hlive. exists (Rooms.join ("conversation_" +:+ conv) cid st).
  assert (step socketAuth (EJoinConversation cid conv) st =
    (Rooms.join ("conversation_" +:+ conv) cid st,
     [AJoin cid ("conversation_" +:+ conv)])) as Hstep.
  { simpl. unfold withSocket. by rewrite Hlive. }
  rewrite Hstep. split; [done|].
  unfold Rooms.join. rewrite Hlive.
  unfold Rooms.membersOf, Rooms.roomsOf. simpl.
  split; [rewrite membersOf_join, decide_True by done; set_solver|].
  split.
  - rewrite roomsOf_enter, decide_True by (rewrite Hlive; eauto). set_solver.
  - split; [|done]. intros room Hne. by rewrite membersOf_join, decide_False.
Qed.

(** C2, as amended.  When the credential of a new connection resolves to
    [userId], the connection transition performs exactly one join, into the
    room [user_<userId>], and leaves the connection registered with that room
    as its only membership.  Until then no join or leave request of the
    connection is processed. *)
Theorem connection_joins_personal_room st cid token uid :
  socketAuth token = Some uid → registry st !! cid = None →
  (∀ conv, step socketAuth (EJoinConversation cid conv) st = (st, []) ∧
           step socketAuth (ELeaveConversation cid conv) st = (st, [])) ∧
  ∃ st',
    step socketAuth (EConnect cid token) st =
      (st', [ALog ("User " +:+ uid +:+ " connected");
             AJoin cid ("user_" +:+ uid)]) ∧
    registry st' !! cid = Some (mkConnection uid {["user_" +:+ uid]}) ∧
    Rooms.membersOf ("user_" +:+ uid) st' =
      Rooms.membersOf ("user_" +:+ uid) st ∪ {[cid]} ∧
    (∀ room, room ≠ "user_" +:+ uid →
       Rooms.membersOf room st' = Rooms.membersOf room st).
Proof.
  intros Hauth Hnew. split.
  { intros conv. simpl. by rewrite !withSocket_absent. }
  eexists. split; [by apply connect_accepted|].
  unfold Rooms.join. simpl. rewrite lookup_insert_eq.
  unfold Rooms.membersOf. simpl. split; [|split].
  - unfold Registry.enter. rewrite lookup_alter_eq, lookup_insert_eq. simpl.
    do 2 f_equal. set_solver.
  - by rewrite membersOf_join, decide_True.
  - intros room Hne. by rewrite membersOf_join, decide_False.
Qed.

(** C3.  In a consistent state, the disconnect transition removes the
    connection from the member set of every room it was in and from no other
    set, and every room whose member set is empty afterwards has no entry in
    the index. *)
Theorem disconnect_releases_memberships st cid :
  Rooms.consistent st →
  let st' := (step socketAuth (EDisconnect cid) st).1 in
  (∀ room, cid ∈ Rooms.membersOf room st → cid ∉ Rooms.membersOf room st') ∧
  (∀ room, Rooms.membersOf room st' = Rooms.membersOf room st ∖ {[cid]}) ∧
  (∀ room, Rooms.membersOf room st ∖ {[cid]} = ∅ → index st' !! room = None) ∧
  registry st' !! cid = None.
Proof.
  intros Hc st'. subst st'.
  change (step socketAuth (EDisconnect cid) st) with (close cid st).
  rewrite close_state.
  assert (∀ room,
    Rooms.membersOf room
      match registry st !! cid with
      | Some _ => Rooms.disconnect cid st
      | None => st
      end = Rooms.membersOf room st ∖ {[cid]}) as Hmembers.
  { intros room. destruct (registry st !! cid) as [c|] eqn:E.
    - apply membersOf_disconnect, Hc.
    - pose proof (unregistered_no_member cid room st (proj1 Hc) E).
      set_solver. }
  split; [intros room _; rewrite Hmembers; set_solver|].
  split; [done|]. split.
  - intros room Hempty. unfold Rooms.membersOf, Index.membersOf in Hempty.
    destruct (registry st !! cid) as [c|] eqn:E.
    + rewrite lookup_index_disconnect by done.
      destruct (index st !! room) as [members|]; simpl in *; [|done].
      unfold Index.without. by rewrite decide_True.
    + destruct (index st !! room) as [members|] eqn:Hroom; simpl in *; [|done].
      pose proof (unregistered_no_member cid room st (proj1 Hc) E) as Hnot.
      unfold Rooms.membersOf, Index.membersOf in Hnot. rewrite Hroom in Hnot.
      simpl in Hnot. assert (members = ∅) as -> by set_solver.
      by destruct (proj2 Hc room).
  - destruct (registry st !! cid) as [c|] eqn:E; [|done].
    rewrite registry_disconnect. apply lookup_delete_eq.
Qed.

(** C4.  Along every execution in which each connection attempt made under
    the identifier [cid] presents a credential the verifier rejects, at every
    point the connection is absent from the registry, is a member of no room,
    and no join, leave or delivery has been performed for it. *)
Theorem refused_connection_never_served evs cid :
  (∀ token, EConnect cid token ∈ evs → socketAuth token = None) →
  ∀ n,
    let st := (run socketAuth (take n evs) initial).1 in
    let out := (run socketAuth (take n evs) initial).2 in
    registry st !! cid = None ∧
    (∀ room, cid ∉ Rooms.membersOf room st) ∧
    List.filter (concerns cid) out = [].
Proof.
  intros Hrefused n st out.
  destruct (run_unregistered socketAuth (take n evs) cid initial)
    as [Hreg Hout]; [apply consistent_initial|done|..].
  { intros token Hin. apply Hrefused. by eapply subseteq_take. }
  split; [done|]. split; [|done].
  intros room. apply unregistered_no_member; [|done].
  apply (run_consistent socketAuth), consistent_initial.
Qed.

(** C5.  Dispatch to a room delivers the event once to every current member
    of the room and to no other connection, leaves the room state as it was,
    and delivers nothing when the room has no members. *)
Theorem dispatch_reaches_exactly_members st room kind payload :
  let out := (step socketAuth (EDispatch room kind payload) st).2 in
  (∀ a, a ∈ out ↔
        ∃ cid, a = ADeliver cid kind payload ∧ cid ∈ Rooms.membersOf room st) ∧
  NoDup out ∧
  (step socketAuth (EDispatch room kind payload) st).1 = st ∧
  (Rooms.membersOf room st = ∅ → out = []).
Proof.
  simpl. unfold Rooms.dispatch. split; [|split; [|split]].
  - intros a. rewrite list_elem_of_fmap. setoid_rewrite elem_of_elements.
    naive_solver.
  - apply NoDup_fmap_2; [by intros ?? [=]|apply NoDup_elements].
  - done.
  - intros ->. by rewrite elements_empty.
Qed.

(** C6.  In every state of the index, joining any number of times is the
    same as joining once, leaving twice is the same as leaving once, and
    leaving a room the connection is not in changes nothing; the same holds
    for the room state as a whole.  A [leaveConversation] request for a room
    the connection is not in is accepted, leaves the state as it is and
    surfaces no error. *)
Theorem join_leave_idempotent (idx : gmap string (gset string)) st room cid
    (conv : string) :
  Index.wf idx → Rooms.consistent st →
  (∀ n : nat, (1 ≤ n)%nat →
     Nat.iter n (Index.join room cid) idx = Index.join room cid idx ∧
     Nat.iter n (Rooms.join room cid) st = Rooms.join room cid st) ∧
  Index.leave room cid (Index.leave room cid idx) = Index.leave room cid idx ∧
  (cid ∉ Index.membersOf room idx → Index.leave room cid idx = idx) ∧
  (cid ∉ Rooms.membersOf room st → Rooms.leave room cid st = st) ∧
  (cid ∉ Rooms.membersOf ("conversation_" +:+ conv) st →
     (step socketAuth (ELeaveConversation cid conv) st).1 = st ∧
     List.filter is_error (step socketAuth (ELeaveConversation cid conv) st).2 = []).
Proof.
  intros Hwf Hc. split; [|split; [|split; [|split]]].
  - intros [|n] Hn; [lia|]. split; [apply join_iter|].
    clear Hn. induction n as [|n IH]; [done|].
    change (Nat.iter (S (S n)) (Rooms.join room cid) st)
      with (Rooms.join room cid (Nat.iter (S n) (Rooms.join room cid) st)).
    by rewrite IH, rooms_join_idem.
  - apply leave_idem.
  - intros Hnot. by apply leave_absent.
  - intros Hnot. by apply rooms_leave_absent.
  - intros Hnot. simpl. unfold withSocket.
    destruct (registry st !! cid) as [c|]; [|done]. simpl.
    split; [|done]. by apply rooms_leave_absent.
Qed.

Lemma run_symmetric evs st :
  Rooms.symmetric st → Rooms.symmetric (run socketAuth evs st).1.
Proof.
  revert st. induction evs as [|ev evs IH]; intros st Hsym; [done|].
  simpl. rewrite andThen_fst. by apply IH, step_symmetric.
Qed.

Lemma symmetric_unregister_roomless cid st :
  Rooms.symmetric st → Rooms.roomsOf cid st = ∅ →
  Rooms.symmetric (Rooms.unregister cid st).1.
Proof.
  intros Hsym Hnone. apply symmetric_alt. intros cid' room.
  pose proof (proj1 (symmetric_alt st) Hsym cid' room) as Hboth.
  unfold Rooms.roomsOf, Registry.roomsOf, Rooms.membersOf in *. simpl.
  rewrite lookup_delete. destruct (decide (cid = cid')) as [<-|]; [|done].
  rewrite Hnone in Hboth. simpl. done.
Qed.

(** C7.  From a state in which the two mappings are symmetric, every
    completed operation ends in a state in which they are symmetric:
    register, join, leave, and the disconnect cleanup in which unregister
    hands its room set over and the index leaves each of those rooms
    (unregister by itself when the connection has no room, as for a repeated
    disconnect signal); so does every event the server handles and every
    sequence of events. *)
Theorem membership_symmetric_after_operations st :
  Rooms.symmetric st →
  (∀ cid uid st', Rooms.register cid uid st = Some st' → Rooms.symmetric st') ∧
  (∀ room cid, Rooms.symmetric (Rooms.join room cid st)) ∧
  (∀ room cid, Rooms.symmetric (Rooms.leave room cid st)) ∧
  (∀ cid, Rooms.symmetric (Rooms.disconnect cid st)) ∧
  (∀ ev, Rooms.symmetric (step socketAuth ev st).1) ∧
  (∀ cid,
     Rooms.symmetric
       (mkServer (registry (Rooms.unregister cid st).1)
          (Rooms.evict cid (Rooms.unregister cid st).2
             (index (Rooms.unregister cid st).1)))) ∧
  (∀ cid, Rooms.roomsOf cid st = ∅ →
     Rooms.symmetric (Rooms.unregister cid st).1) ∧
  (∀ evs, Rooms.symmetric (run socketAuth evs st).1).
Proof.
  intros Hsym. split; [|split; [|split; [|split; [|split; [|split; [|split]]]]]].
  - intros cid uid st'. by apply symmetric_register.
  - intros room cid. by apply symmetric_join.
  - intros room cid. by apply symmetric_leave.
  - intros cid. by apply symmetric_disconnect.
  - intros ev. by apply step_symmetric.
  - intros cid. by apply (symmetric_disconnect cid st).
  - intros cid. by apply symmetric_unregister_roomless.
  - intros evs. by apply run_symmetric.
Qed.

End RoomClaims.

(** ** The properties at the concrete deployment *)

Lemma scenario_reachable evs :
  reachable Scenario.socketAuth (run Scenario.socketAuth evs initial).1.
Proof. by exists evs. Qed.

(** C1 as stated fails: [U1] is not a participant of [c7], and [c9] is not
    found in the store, yet both requests change the membership. *)
Lemma joinConversation_not_gated :
  isParticipant Scenario.store "U1" "c7" = Some false ∧
  isParticipant Scenario.store "U1" "c9" = None ∧
  Registry.lookup "A" (registry Scenario.connectedA) = Some "U1" ∧
  (step Scenario.socketAuth (EJoinConversation "A" "c7") Scenario.connectedA).1
    ≠ Scenario.connectedA ∧
  Rooms.membersOf "conversation_c7"
    (step Scenario.socketAuth (EJoinConversation "A" "c7") Scenario.connectedA).1
    = {["A"]} ∧
  Rooms.membersOf "conversation_c9"
    (step Scenario.socketAuth (EJoinConversation "A" "c9") Scenario.connectedA).1
    = {["A"]}.
Proof.
  split; [by vm_compute|]. split; [by vm_compute|]. split; [by vm_compute|].
  split; [|split; by vm_compute].
  intros Heq. apply (f_equal (λ st, index st !! "conversation_c7")) in Heq.
  vm_compute in Heq. discriminate.
Qed.

Lemma joinConversation_admits_unconditionally_witness :
  registry Scenario.connectedA !! "A" = Some (mkConnection "U1" {["user_U1"]}) ∧
  ∃ st',
    step Scenario.socketAuth (EJoinConversation "A" "c7") Scenario.connectedA =
      (st', [AJoin "A" ("conversation_" +:+ "c7")]) ∧
    "A" ∈ Rooms.membersOf ("conversation_" +:+ "c7") st' ∧
    "conversation_" +:+ "c7" ∈ Rooms.roomsOf "A" st' ∧
    (∀ room, room ≠ "conversation_" +:+ "c7" →
       Rooms.membersOf room st' = Rooms.membersOf room Scenario.connectedA) ∧
    List.filter is_error
      (step Scenario.socketAuth (EJoinConversation "A" "c7")
         Scenario.connectedA).2 = [].
Proof.
  split; [by vm_compute|].
  apply (joinConversation_admits_unconditionally Scenario.socketAuth
           Scenario.connectedA "A" (mkConnection "U1" {["user_U1"]}) "c7").
  by vm_compute.
Defined.

(** C2 as stated fails: the one join made for [U1] is into [user_U1], and the
    connection is not a member of a room named ["user:U1"]. *)
Lemma personal_room_uses_underscore :
  Scenario.socketAuth (Some "token-U1") = Some "U1" ∧
  List.filter is_join
    (step Scenario.socketAuth (EConnect "A" (Some "token-U1")) initial).2
    = [AJoin "A" "user_U1"] ∧
  [AJoin "A" "user_U1"] ≠ [AJoin "A" ("user:" +:+ "U1")] ∧
  Rooms.membersOf ("user:" +:+ "U1")
    (step Scenario.socketAuth (EConnect "A" (Some "token-U1")) initial).1 = ∅.
Proof. repeat split; by vm_compute. Qed.

Lemma connection_joins_personal_room_witness :
  Scenario.socketAuth (Some "token-U1") = Some "U1" ∧
  registry initial !! "A" = None ∧
  (∀ conv : string,
     step Scenario.socketAuth (EJoinConversation "A" conv) initial = (initial, []) ∧
     step Scenario.socketAuth (ELeaveConversation "A" conv) initial = (initial, [])) ∧
  ∃ st',
    step Scenario.socketAuth (EConnect "A" (Some "token-U1")) initial =
      (st', [ALog ("User " +:+ "U1" +:+ " connected");
             AJoin "A" ("user_" +:+ "U1")]) ∧
    registry st' !! "A" = Some (mkConnection "U1" {["user_" +:+ "U1"]}) ∧
    Rooms.membersOf ("user_" +:+ "U1") st' =
      Rooms.membersOf ("user_" +:+ "U1") initial ∪ {["A"]} ∧
    (∀ room, room ≠ "user_" +:+ "U1" →
       Rooms.membersOf room st' = Rooms.membersOf room initial).
Proof.
  split; [reflexivity|]. split; [reflexivity|].
  apply (connection_joins_personal_room Scenario.socketAuth initial "A"
           (Some "token-U1") "U1"); reflexivity.
Defined.

Lemma disconnect_releases_memberships_witness :
  Rooms.consistent Scenario.aloneIn42 ∧
  let st' :=
    (step Scenario.socketAuth (EDisconnect "A") Scenario.aloneIn42).1 in
  (∀ room, "A" ∈ Rooms.membersOf room Scenario.aloneIn42 →
           "A" ∉ Rooms.membersOf room st') ∧
  (∀ room, Rooms.membersOf room st' =
           Rooms.membersOf room Scenario.aloneIn42 ∖ {["A"]}) ∧
  (∀ room, Rooms.membersOf room Scenario.aloneIn42 ∖ {["A"]} = ∅ →
           index st' !! room = None) ∧
  registry st' !! "A" = None.
Proof.
  assert (Rooms.consistent Scenario.aloneIn42) as Hc.
  { apply (reachable_consistent Scenario.socketAuth), scenario_reachable. }
  split; [exact Hc|].
  exact (disconnect_releases_memberships Scenario.socketAuth
           Scenario.aloneIn42 "A" Hc).
Defined.

(** The check the spec proposes: [A] alone in [conversation_42], [A]
    disconnects, and the room has no entry. *)
Example conversation_42_deleted :
  index Scenario.aloneIn42 !! "conversation_42" = Some {["A"]} ∧
  index (step Scenario.socketAuth (EDisconnect "A") Scenario.aloneIn42).1
    !! "conversation_42" = None ∧
  (step Scenario.socketAuth (EDisconnect "A") Scenario.aloneIn42).1 = initial.
Proof. repeat split; by vm_compute. Qed.

Lemma refused_connection_never_served_witness :
  let evs := [EConnect "B" None; EJoinConversation "B" "c7";
              EConnect "A" (Some "token-U1"); EConnect "B" (Some "stale");
              EJoinConversation "A" "c7"; EDispatch "conversation_c7" "chat.message" "hi";
              EDisconnect "B"] in
  (∀ token, EConnect "B" token ∈ evs → Scenario.socketAuth token = None) ∧
  ∀ n,
    let st := (run Scenario.socketAuth (take n evs) initial).1 in
    let out := (run Scenario.socketAuth (take n evs) initial).2 in
    registry st !! "B" = None ∧
    (∀ room, "B" ∉ Rooms.membersOf room st) ∧
    List.filter (concerns "B") out = [].
Proof.
  intros evs.
  assert (∀ token, EConnect "B" token ∈ evs → Scenario.socketAuth token = None)
    as Hrefused.
  { intros token Hin. subst evs.
    repeat (apply elem_of_cons in Hin as [Hin|Hin]; [by simplify_eq|]).
    by apply elem_of_nil in Hin. }
  split; [exact Hrefused|].
  exact (refused_connection_never_served Scenario.socketAuth evs "B" Hrefused).
Defined.

(** The check the spec proposes for dispatch: two conversation rooms whose
    memberships overlap without being equal. *)
Example dispatch_two_rooms :
  Rooms.dispatch "conversation_c7" "chat.message" "hi" Scenario.twoRooms ≡ₚ
    [ADeliver "A" "chat.message" "hi"; ADeliver "B" "chat.message" "hi"] ∧
  Rooms.dispatch "conversation_c8" "chat.message" "hi" Scenario.twoRooms ≡ₚ
    [ADeliver "B" "chat.message" "hi"; ADeliver "C" "chat.message" "hi"] ∧
  Rooms.dispatch "conversation_c9" "chat.message" "hi" Scenario.twoRooms = [].
Proof.
  split; [|split]; vm_compute; [| |done].
  all: first [reflexivity | apply perm_swap].
Qed.

Lemma join_leave_idempotent_witness :
  Index.wf (index Scenario.twoRooms) ∧
  Rooms.consistent Scenario.connectedA ∧
  (∀ n : nat, (1 ≤ n)%nat →
     Nat.iter n (Index.join "conversation_c7" "C") (index Scenario.twoRooms) =
       Index.join "conversation_c7" "C" (index Scenario.twoRooms) ∧
     Nat.iter n (Rooms.join "conversation_c7" "C") Scenario.connectedA =
       Rooms.join "conversation_c7" "C" Scenario.connectedA) ∧
  Index.leave "conversation_c7" "C"
      (Index.leave "conversation_c7" "C" (index Scenario.twoRooms)) =
    Index.leave "conversation_c7" "C" (index Scenario.twoRooms) ∧
  ("C" ∉ Index.membersOf "conversation_c7" (index Scenario.twoRooms) →
     Index.leave "conversation_c7" "C" (index Scenario.twoRooms) =
       index Scenario.twoRooms) ∧
  ("C" ∉ Rooms.membersOf "conversation_c7" Scenario.connectedA →
     Rooms.leave "conversation_c7" "C" Scenario.connectedA = Scenario.connectedA) ∧
  ("C" ∉ Rooms.membersOf ("conversation_" +:+ "c7") Scenario.connectedA →
     (step Scenario.socketAuth (ELeaveConversation "C" "c7") Scenario.connectedA).1
       = Scenario.connectedA ∧
     List.filter is_error
       (step Scenario.socketAuth (ELeaveConversation "C" "c7") Scenario.connectedA).2
       = []).
Proof.
  assert (Rooms.consistent Scenario.twoRooms) as [_ Hwf].
  { apply (reachable_consistent Scenario.socketAuth), scenario_reachable. }
  assert (Rooms.consistent Scenario.connectedA) as Hc.
  { apply (reachable_consistent Scenario.socketAuth), scenario_reachable. }
  split; [exact Hwf|]. split; [exact Hc|].
  exact (join_leave_idempotent Scenario.socketAuth (index Scenario.twoRooms)
           Scenario.connectedA "conversation_c7" "C" "c7" Hwf Hc).
Defined.

(** Joining three times, and leaving a room never joined, on the concrete
    states. *)
Example join_thrice :
  Nat.iter 3 (Rooms.join "conversation_c7" "A") Scenario.connectedA =
    Rooms.join "conversation_c7" "A" Scenario.connectedA ∧
  ("C" ∉ Index.membersOf "conversation_c7" (index Scenario.twoRooms)) ∧
  Index.leave "conversation_c7" "C" (index Scenario.twoRooms) =
    index Scenario.twoRooms.
Proof.
  split; [by vm_compute|]. split; [|by vm_compute].
  apply (bool_decide_unpack _). by vm_compute.
Qed.

(** A [leaveConversation] for a room never joined, run on the concrete
    state. *)
Example leave_never_joined :
  step Scenario.socketAuth (ELeaveConversation "A" "c7") Scenario.connectedA =
    (Scenario.connectedA, [ALeave "A" "conversation_c7"]).
Proof. by vm_compute. Qed.

Lemma membership_symmetric_after_operations_witness :
  Rooms.symmetric Scenario.twoRooms ∧
  (∀ cid uid st', Rooms.register cid uid Scenario.twoRooms = Some st' →
                  Rooms.symmetric st') ∧
  (∀ room cid, Rooms.symmetric (Rooms.join room cid Scenario.twoRooms)) ∧
  (∀ room cid, Rooms.symmetric (Rooms.leave room cid Scenario.twoRooms)) ∧
  (∀ cid, Rooms.symmetric (Rooms.disconnect cid Scenario.twoRooms)) ∧
  (∀ ev, Rooms.symmetric (step Scenario.socketAuth ev Scenario.twoRooms).1) ∧
  (∀ cid,
     Rooms.symmetric
       (mkServer (registry (Rooms.unregister cid Scenario.twoRooms).1)
          (Rooms.evict cid (Rooms.unregister cid Scenario.twoRooms).2
             (index (Rooms.unregister cid Scenario.twoRooms).1)))) ∧
  (∀ cid, Rooms.roomsOf cid Scenario.twoRooms = ∅ →
     Rooms.symmetric (Rooms.unregister cid Scenario.twoRooms).1) ∧
  (∀ evs, Rooms.symmetric (run Scenario.socketAuth evs Scenario.twoRooms).1).
Proof.
  assert (Rooms.symmetric Scenario.twoRooms) as Hsym.
  { apply (reachable_consistent Scenario.socketAuth), scenario_reachable. }
  split; [exact Hsym|].
  exact (membership_symmetric_after_operations Scenario.socketAuth
           Scenario.twoRooms Hsym).
Defined.

(** Disconnecting [B], which is in three rooms, on the concrete state: the
    registry entry and all three memberships go together. *)
Example disconnect_B_everywhere :
  Rooms.roomsOf "B" Scenario.twoRooms =
    {["user_U2"; "conversation_c7"; "conversation_c8"]} ∧
  registry (step Scenario.socketAuth (EDisconnect "B") Scenario.twoRooms).1
    !! "B" = None ∧
  Rooms.membersOf "user_U2"
    (step Scenario.socketAuth (EDisconnect "B") Scenario.twoRooms).1 = {["C"]} ∧
  Rooms.membersOf "conversation_c7"
    (step Scenario.socketAuth (EDisconnect "B") Scenario.twoRooms).1 = {["A"]} ∧
  Rooms.membersOf "conversation_c8"
    (step Scenario.socketAuth (EDisconnect "B") Scenario.twoRooms).1 = {["C"]}.
Proof. repeat split; by vm_compute. Qed.

(** ** The e-mail service *)

Section EmailFacts.
Import EmailService.
Local Open Scope Z_scope.

Lemma randomInt_range min max draw :
  min < max → min ≤ Js.randomInt min max draw < max.
Proof.
  intros Hlt. unfold Js.randomInt.
  pose proof (Z.mod_pos_bound draw (max - min)). lia.
Qed.

(** Every value of the range is drawn by some outcome of the generator. *)
Lemma randomInt_onto min max n :
  min ≤ n < max → Js.randomInt min max (n - min) = n.
Proof.
  intros Hn. unfold Js.randomInt. rewrite Z.mod_small by lia. lia.
Qed.

Lemma digitValue_digitChar d :
  0 ≤ d ≤ 9 → Js.digitValue (Js.digitChar d) = Some d.
Proof.
  intros Hd.
  assert (d = 0 ∨ d = 1 ∨ d = 2 ∨ d = 3 ∨ d = 4 ∨
          d = 5 ∨ d = 6 ∨ d = 7 ∨ d = 8 ∨ d = 9) as Hcases by lia.
  repeat destruct Hcases as [->|Hcases]; try reflexivity.
  by subst.
Qed.

Lemma decimal_more fuel n acc :
  n / 10 ≠ 0 →
  Js.decimal (S fuel) n acc =
  Js.decimal fuel (n / 10) (String (Js.digitChar (n mod 10)) acc).
Proof. intros Hq. simpl. by rewrite (proj2 (Z.eqb_neq _ _) Hq). Qed.

Lemma decimal_last fuel n acc :
  n / 10 = 0 →
  Js.decimal (S fuel) n acc = String (Js.digitChar (n mod 10)) acc.
Proof. intros Hq. simpl. by rewrite Hq. Qed.

(** The decimal digits of a six-digit number. *)
Lemma toString_six n :
  100000 ≤ n ≤ 999999 →
  ∃ d5 d4 d3 d2 d1 d0,
    1 ≤ d5 ≤ 9 ∧ 0 ≤ d4 ≤ 9 ∧ 0 ≤ d3 ≤ 9 ∧ 0 ≤ d2 ≤ 9 ∧ 0 ≤ d1 ≤ 9 ∧
    0 ≤ d0 ≤ 9 ∧
    n = 100000 * d5 + 10000 * d4 + 1000 * d3 + 100 * d2 + 10 * d1 + d0 ∧
    Js.toString n =
      String (Js.digitChar d5) (String (Js.digitChar d4)
        (String (Js.digitChar d3) (String (Js.digitChar d2)
          (String (Js.digitChar d1) (String (Js.digitChar d0) ""))))).
Proof.
  intros Hn.
  exists (n / 10 / 10 / 10 / 10 / 10 mod 10), (n / 10 / 10 / 10 / 10 mod 10),
    (n / 10 / 10 / 10 mod 10), (n / 10 / 10 mod 10), (n / 10 mod 10), (n mod 10).
  repeat (split; [Z.div_mod_to_equations; lia|]).
  unfold Js.toString. rewrite (proj2 (Z.ltb_ge _ _)) by lia.
  assert (16 ≤ Z.log2 n) as Hlog.
  { change 16 with (Z.log2 100000). apply Z.log2_le_mono. lia. }
  assert (∃ k, Z.to_nat (Z.log2 n) = (5 + k)%nat) as [k ->].
  { exists (Z.to_nat (Z.log2 n) - 5)%nat. lia. }
  change (S (5 + k)) with (S (S (S (S (S (S k)))))).
  rewrite !decimal_more by (Z.div_mod_to_equations; lia).
  apply decimal_last. Z.div_mod_to_equations; lia.
Qed.

(** C8.  Whatever the generator draws, [generateOTP] returns a string of
    exactly six decimal digits whose first digit is not zero and whose
    numeric value is the number drawn, between 100000 and 999998 inclusive. *)
Theorem generateOTP_six_digits draw :
  let otp := generateOTP draw in
  String.length otp = 6%nat ∧
  Js.allDigits otp = true ∧
  (∀ c rest, otp = String c rest → c ≠ "0"%char) ∧
  ∃ n, Js.numericValue otp = Some n ∧ 100000 ≤ n ≤ 999998.
Proof.
  intros otp. subst otp. unfold generateOTP.
  pose proof (randomInt_range 100000 999999 draw ltac:(lia)) as Hrange.
  destruct (toString_six (Js.randomInt 100000 999999 draw) ltac:(lia))
    as (d5 & d4 & d3 & d2 & d1 & d0 & H5 & H4 & H3 & H2 & H1 & H0 & Hsum & ->).
  split; [done|]. split; [|split].
  - unfold Js.allDigits, Js.isDigit. by rewrite !digitValue_digitChar by lia.
  - intros c rest [= <- _] Hzero.
    pose proof (digitValue_digitChar d5 ltac:(lia)) as Hv.
    rewrite Hzero in Hv. vm_compute in Hv. injection Hv as <-. lia.
  - exists (Js.randomInt 100000 999999 draw). split; [|lia].
    unfold Js.numericValue, Js.numericValueFrom.
    rewrite !digitValue_digitChar by lia. f_equal. lia.
Qed.

(** Both ends of the range are produced, and the excluded upper bound of
    [randomInt] is why 999999 is not. *)
Example generateOTP_extremes :
  generateOTP 0 = "100000"%string ∧ generateOTP 899998 = "999998"%string ∧
  generateOTP 899999 = "100000"%string.
Proof. repeat split; by vm_compute. Qed.

Lemma otpTemplate_unknown type otp :
  type ∉ validTypes → otpTemplate type otp = None.
Proof.
  intros Hnot. unfold otpTemplate, validTypes in *.
  rewrite !(proj2 (String.eqb_neq _ _)); [done|..]; intros ->; set_solver.
Qed.

(** C9, as amended.  For a type other than the three known ones,
    [sendOTPEmail] never calls send; it returns the failure
    ['Invalid email type specified'] when [SENDGRID_API_KEY] is set, and the
    failure of the configuration check when it is not. *)
Theorem sendOTPEmail_unknown_type env sgMail_send email otp type :
  type ∉ validTypes →
  (sendOTPEmail env sgMail_send email otp type).1 =
    (if Js.truthy (SENDGRID_API_KEY env)
     then mkResult false (Some "Invalid email type specified"%string)
     else mkResult false
            (Some "SendGrid is not properly configured. Please check your environment variables."%string)) ∧
  List.filter is_send (sendOTPEmail env sgMail_send email otp type).2 = [].
Proof.
  intros Hnot. unfold sendOTPEmail, verifySendGridConfig.
  destruct (Js.truthy (SENDGRID_API_KEY env)); simpl; [|done].
  destruct (Js.truthy (SENDGRID_FROM_EMAIL env)); simpl;
    by rewrite otpTemplate_unknown.
Qed.

(** C10.  Whatever its arguments, the environment and the mail transport,
    [sendAdminApprovalEmail] rejects with the reference error for
    [createTransporter] and has done nothing before that: no mail is handed
    to a transport and nothing is logged; it never fulfils with
    [{ success: true }]. *)
Theorem sendAdminApprovalEmail_always_rejects env transporter_sendMail
    adminEmail alumni :
  sendAdminApprovalEmail env transporter_sendMail adminEmail alumni =
    (Rejected (ReferenceError "createTransporter is not defined"), []) ∧
  (sendAdminApprovalEmail env transporter_sendMail adminEmail alumni).1
    ≠ Fulfilled (mkResult true None) ∧
  List.filter is_send
    (sendAdminApprovalEmail env transporter_sendMail adminEmail alumni).2 = [].
Proof.
  assert (sendAdminApprovalEmail env transporter_sendMail adminEmail alumni =
    (Rejected (ReferenceError "createTransporter is not defined"), [])) as ->.
  { unfold sendAdminApprovalEmail.
    by replace (resolves ["adminEmail"; "alumni"] "createTransporter")%string
      with false by (by vm_compute). }
  by repeat split.
Qed.

End EmailFacts.

(** C9 as stated fails when the API key is not configured: the call with an
    unknown type returns the configuration failure instead. *)
Lemma invalid_type_without_api_key :
  ("welcome" ∉ EmailService.validTypes) ∧
  (EmailService.sendOTPEmail (EmailService.mkEnv None None None) (λ _, None)
     "user@example.com" "123456" "welcome").1 =
    EmailService.mkResult false
      (Some "SendGrid is not properly configured. Please check your environment variables.") ∧
  (EmailService.sendOTPEmail (EmailService.mkEnv None None None) (λ _, None)
     "user@example.com" "123456" "welcome").1 ≠
    EmailService.mkResult false (Some "Invalid email type specified").
Proof.
  split; [|split; by vm_compute].
  unfold EmailService.validTypes. intros Hin.
  repeat (apply elem_of_cons in Hin as [Hin|Hin]; [by simplify_eq|]).
  by apply elem_of_nil in Hin.
Qed.

Lemma sendOTPEmail_unknown_type_witness :
  ("welcome" ∉ EmailService.validTypes) ∧
  (EmailService.sendOTPEmail (EmailService.mkEnv (Some "SG.key") None None)
     (λ _, None) "user@example.com" "123456" "welcome").1 =
    (if Js.truthy (EmailService.SENDGRID_API_KEY
                     (EmailService.mkEnv (Some "SG.key") None None))
     then EmailService.mkResult false (Some "Invalid email type specified")
     else EmailService.mkResult false
            (Some "SendGrid is not properly configured. Please check your environment variables.")) ∧
  List.filter EmailService.is_send
    (EmailService.sendOTPEmail (EmailService.mkEnv (Some "SG.key") None None)
       (λ _, None) "user@example.com" "123456" "welcome").2 = [].
Proof.
  assert ("welcome" ∉ EmailService.validTypes) as Hnot.
  { unfold EmailService.validTypes. intros Hin.
    repeat (apply elem_of_cons in Hin as [Hin|Hin]; [by simplify_eq|]).
    by apply elem_of_nil in Hin. }
  split; [exact Hnot|].
  exact (sendOTPEmail_unknown_type (EmailService.mkEnv (Some "SG.key") None None)
           (λ _, None) "user@example.com" "123456" "welcome" Hnot).
Defined.

(** * Further properties of the code *)

(** ** The start-up checks and the CORS policy *)

Section ServerEntryFacts.
Import ServerEntry.
Implicit Types (env : gmap string string) (origin : option string).

Lemma elem_of_missingVars env varName :
  varName ∈ missingVars env ↔
  varName ∈ requiredEnvVars ∧ Js.truthy (env !! varName) = false.
Proof.
  unfold missingVars. rewrite !list_elem_of_In, List.filter_In.
  by rewrite negb_true_iff.
Qed.

Lemma missingVars_nil env :
  missingVars env = [] ↔
  Js.truthy (env !! "MONGO_URI") = true ∧
  Js.truthy (env !! "JWT_SECRET") = true ∧
  Js.truthy (env !! "NODE_ENV") = true.
Proof.
  unfold missingVars, requiredEnvVars. simpl.
  destruct (Js.truthy (env !! "MONGO_URI")),
    (Js.truthy (env !! "JWT_SECRET")), (Js.truthy (env !! "NODE_ENV"));
    simpl; naive_solver.
Qed.

(** X1.  The start-up check ends the process with exit code 1 exactly when
    one of [MONGO_URI], [JWT_SECRET], [NODE_ENV] is unset or empty, and does
    nothing otherwise; the names it reports are exactly the required
    variables that are unset or empty. *)
Theorem verifyEnvironment_exits_iff_missing env :
  (verifyEnvironment env = [] ↔
     Js.truthy (env !! "MONGO_URI") = true ∧
     Js.truthy (env !! "JWT_SECRET") = true ∧
     Js.truthy (env !! "NODE_ENV") = true) ∧
  (verifyEnvironment env ≠ [] →
     verifyEnvironment env =
       [ConsoleError ["ERROR: Missing required environment variables:";
                      String.concat ", " (missingVars env)];
        ProcessExit 1]) ∧
  (∀ varName, varName ∈ missingVars env ↔
     varName ∈ requiredEnvVars ∧ Js.truthy (env !! varName) = false).
Proof.
  split; [|split; [|apply elem_of_missingVars]].
  - rewrite <-missingVars_nil. unfold verifyEnvironment.
    by destruct (missingVars env).
  - unfold verifyEnvironment. by destruct (missingVars env).
Qed.

(** X2.  The environment summary depends on the environment only through
    [NODE_ENV], [FRONTEND_URL], [EMAIL_SERVICE] and on whether [MONGO_URI] is
    set: neither the value of [MONGO_URI] nor [JWT_SECRET] reaches the
    console.  Once the start-up check has passed, the database line always
    reads [Configured]. *)
Theorem environmentInfo_hides_secrets env env' nodeVersion :
  env !! "NODE_ENV" = env' !! "NODE_ENV" →
  env !! "FRONTEND_URL" = env' !! "FRONTEND_URL" →
  env !! "EMAIL_SERVICE" = env' !! "EMAIL_SERVICE" →
  Js.truthy (env !! "MONGO_URI") = Js.truthy (env' !! "MONGO_URI") →
  environmentInfo env nodeVersion = environmentInfo env' nodeVersion ∧
  (verifyEnvironment env = [] →
     ConsoleLog ["- Database:"; "Configured"] ∈ environmentInfo env nodeVersion).
Proof.
  intros Hnode Hfront Hmail Hmongo. split.
  - unfold environmentInfo. by rewrite Hnode, Hfront, Hmail, Hmongo.
  - unfold verifyEnvironment. destruct (missingVars env) eqn:Hmissing; [|done].
    intros _. apply missingVars_nil in Hmissing as (Hset & _ & _).
    unfold environmentInfo. rewrite Hset. set_solver.
Qed.

Lemma elem_of_allowedOrigins env o :
  o ∈ allowedOrigins env ↔
  o = "http://localhost:3000" ∨ o = "http://127.0.0.1:3000" ∨
  (env !! "FRONTEND_URL" = Some o ∧ o ≠ "").
Proof.
  unfold allowedOrigins, filterBoolean. simpl.
  destruct (env !! "FRONTEND_URL") as [url|]; simpl.
  - destruct (String.eqb_spec url ""); simpl.
    + subst. rewrite !elem_of_cons, elem_of_nil. naive_solver.
    + rewrite !elem_of_cons, elem_of_nil. naive_solver.
  - rewrite !elem_of_cons, elem_of_nil. naive_solver.
Qed.

(** X3.  The CORS origin function accepts a request exactly when it carries
    no origin (or an empty one), or the server runs in development, or the
    origin is one of the two local front-end addresses or the configured
    [FRONTEND_URL]; every other request is refused with
    ['Not allowed by CORS'].  In particular the two local addresses are
    accepted in production too. *)
Theorem corsOrigin_characterised env origin :
  (corsOrigin env origin = Allow ↔
     Js.truthy origin = false ∨
     env !! "NODE_ENV" = Some "development" ∨
     origin = Some "http://localhost:3000" ∨
     origin = Some "http://127.0.0.1:3000" ∨
     (origin = env !! "FRONTEND_URL" ∧ Js.truthy origin = true)) ∧
  (corsOrigin env origin ≠ Allow →
     corsOrigin env origin = Deny "Not allowed by CORS").
Proof.
  unfold corsOrigin. destruct (Js.truthy origin) eqn:Horigin; simpl;
    [|split; [naive_solver|done]].
  destruct origin as [o|]; [|done]. simpl in *.
  assert (o ≠ "") as Hne by (by intros ->).
  destruct (bool_decide_reflect (env !! "NODE_ENV" = Some "development"));
    [split; [naive_solver|done]|].
  destruct (bool_decide_reflect (o ∈ allowedOrigins env)) as [Hin|Hout];
    rewrite elem_of_allowedOrigins in *.
  - split; [|done]. split; [|done]. intros _. naive_solver.
  - split; [|done]. split; [done|]. intros Hallowed. destruct Hout.
    naive_solver.
Qed.

End ServerEntryFacts.

(** ** config/database.js *)

Section DatabaseFacts.
Import Database.
Implicit Types (env : gmap string string).

(** X4.  Without [MONGO_URI] (unset or empty) [connectDB] never calls
    [mongoose.connect]: it reports the missing connection string, logs the
    URI as [Not set] and ends the process with exit code 1. *)
Theorem connectDB_without_uri env mongoose_connect :
  Js.truthy (env !! "MONGO_URI") = false →
  connectDB env mongoose_connect =
    (Exited 1,
     [ConsoleError ["Database connection failed:";
        "MongoDB connection string is not defined. Please set MONGO_URI environment variable."];
      ConsoleError ["Connection URI used:"; "Not set"];
      ProcessExit 1]) ∧
  List.filter is_connect (connectDB env mongoose_connect).2 = [].
Proof.
  intros Hunset. unfold connectDB, connectionFailed. by rewrite Hunset.
Qed.

(** X5.  With [MONGO_URI] set, [connectDB] calls [mongoose.connect] exactly
    once, with that URI and the fixed options.  It returns the connection,
    after registering the [error] and [disconnected] listeners, exactly when
    the call resolves; when the call rejects it ends the process with exit
    code 1 and registers nothing. *)
Theorem connectDB_with_uri env mongoose_connect uri :
  env !! "MONGO_URI" = Some uri → uri ≠ "" →
  List.filter is_connect (connectDB env mongoose_connect).2 =
    [MongooseConnect uri (mkConnectOptions true true 5000 45000)] ∧
  (∀ conn, mongoose_connect uri options = inl conn →
     (connectDB env mongoose_connect).1 = Returned conn ∧
     ConnectionOn "error" ∈ (connectDB env mongoose_connect).2 ∧
     ConnectionOn "disconnected" ∈ (connectDB env mongoose_connect).2 ∧
     ProcessExit 1 ∉ (connectDB env mongoose_connect).2) ∧
  (∀ message, mongoose_connect uri options = inr message →
     (connectDB env mongoose_connect).1 = Exited 1 ∧
     ProcessExit 1 ∈ (connectDB env mongoose_connect).2 ∧
     (∀ event, ConnectionOn event ∉ (connectDB env mongoose_connect).2)).
Proof.
  intros Huri Hne.
  assert (Js.truthy (env !! "MONGO_URI") = true) as Hset.
  { rewrite Huri. simpl. by destruct (String.eqb_spec uri ""). }
  unfold connectDB, connectionFailed. rewrite Hset, Huri. simpl.
  destruct (mongoose_connect uri options) as [conn|message]; simpl.
  - split; [done|]. split; [|done]. intros ? [= <-]. set_solver.
  - split; [done|]. split; [done|]. intros ? [= <-]. set_solver.
Qed.

(** X6.  With [MONGO_URI] set, the console output of [connectDB] is
    exactly: the line announcing the connection, then either the host and the
    database name of the connection [mongoose.connect] returned, or the
    message of the error it rejected with followed by the URI shown as
    [[HIDDEN]].  So the code passes the URI to [mongoose.connect] only: two
    runs whose [mongoose.connect] gives the same answer print the same and
    end the same way, whatever their URIs, and the URI can appear on the
    console only inside what [mongoose.connect] answers. *)
Theorem connectDB_console_output env mongoose_connect uri :
  env !! "MONGO_URI" = Some uri → uri ≠ "" →
  List.filter is_console (connectDB env mongoose_connect).2 =
    ConsoleLog ["Connecting to MongoDB..."] ::
    match mongoose_connect uri options with
    | inl conn =>
        [ConsoleLog ["MongoDB Connected: " +:+ connection_host conn];
         ConsoleLog ["Database Name: " +:+ connection_name conn]]
    | inr message =>
        [ConsoleError ["Database connection failed:"; message];
         ConsoleError ["Connection URI used:"; "[HIDDEN]"]]
    end ∧
  ∀ env' mongoose_connect' uri',
    env' !! "MONGO_URI" = Some uri' → uri' ≠ "" →
    mongoose_connect' uri' options = mongoose_connect uri options →
    List.filter is_console (connectDB env' mongoose_connect').2 =
      List.filter is_console (connectDB env mongoose_connect).2 ∧
    (connectDB env' mongoose_connect').1 = (connectDB env mongoose_connect).1.
Proof.
  assert (∀ env0 connect0 uri0,
    env0 !! "MONGO_URI" = Some uri0 → uri0 ≠ "" →
    (List.filter is_console (connectDB env0 connect0).2,
     (connectDB env0 connect0).1) =
    match connect0 uri0 options with
    | inl conn =>
        ([ConsoleLog ["Connecting to MongoDB..."];
          ConsoleLog ["MongoDB Connected: " +:+ connection_host conn];
          ConsoleLog ["Database Name: " +:+ connection_name conn]],
         Returned conn)
    | inr message =>
        ([ConsoleLog ["Connecting to MongoDB..."];
          ConsoleError ["Database connection failed:"; message];
          ConsoleError ["Connection URI used:"; "[HIDDEN]"]],
         Exited 1)
    end) as Hshape.
  { intros env0 connect0 uri0 Huri0 Hne0.
    unfold connectDB, connectionFailed. rewrite Huri0. simpl.
    rewrite (proj2 (String.eqb_neq _ _) Hne0). simpl.
    by destruct (connect0 uri0 options). }
  intros Huri Hne. pose proof (Hshape env mongoose_connect uri Huri Hne) as Hhere.
  split.
  - destruct (mongoose_connect uri options); by injection Hhere as -> _.
  - intros env' mongoose_connect' uri' Huri' Hne' Hsame.
    pose proof (Hshape env' mongoose_connect' uri' Huri' Hne') as Hthere.
    rewrite Hsame, <-Hhere in Hthere. by injection Hthere as -> ->.
Qed.

(** X7.  When the start-up check of the entry point has passed, the
    [connectDB] call that follows it always reaches [mongoose.connect], with
    the configured URI: its missing-URI branch cannot be taken. *)
Theorem connectDB_after_verifyEnvironment env mongoose_connect :
  ServerEntry.verifyEnvironment env = [] →
  ∃ uri, env !! "MONGO_URI" = Some uri ∧ uri ≠ "" ∧
    List.filter is_connect (connectDB env mongoose_connect).2 =
      [MongooseConnect uri options].
Proof.
  intros Hok. unfold ServerEntry.verifyEnvironment in Hok.
  destruct (ServerEntry.missingVars env) eqn:Hmissing; [|done].
  apply missingVars_nil in Hmissing as (Hset & _ & _).
  destruct (env !! "MONGO_URI") as [uri|] eqn:Huri; [|done].
  exists uri. simpl in Hset.
  destruct (String.eqb_spec uri "") as [->|Hne]; [done|].
  split; [done|]. split; [done|].
  unfold connectDB, connectionFailed. rewrite Huri. simpl.
  rewrite (proj2 (String.eqb_neq _ _) Hne). simpl.
  by destruct (mongoose_connect uri options).
Qed.

End DatabaseFacts.

(** ** More on the e-mail service *)

Section EmailMoreFacts.
Import EmailService.
Implicit Types (env : Env) (email otp type : string).

Lemma truthy_orElse v fallback :
  Js.orElse v fallback = if Js.truthy v then default "" v else fallback.
Proof.
  unfold Js.orElse, Js.truthy. destruct v as [s|]; [|done].
  by destruct (String.eqb s "").
Qed.

Lemma orElse_nonempty v fallback : fallback ≠ "" → Js.orElse v fallback ≠ "".
Proof.
  intros Hne. unfold Js.orElse. destruct v as [s|]; [|done].
  by destruct (String.eqb_spec s "").
Qed.

Lemma otpTemplate_known type otp :
  type ∈ validTypes → is_Some (otpTemplate type otp).
Proof.
  unfold validTypes, otpTemplate. rewrite !elem_of_cons, elem_of_nil.
  intros [->|[->|[->|[]]]]; by eexists.
Qed.

(** What [sendOTPEmail] hands to [sgMail.send], and what it returns. *)
Lemma sendOTPEmail_summary env sgMail_send email otp type :
  (List.filter is_send (sendOTPEmail env sgMail_send email otp type).2,
   (sendOTPEmail env sgMail_send email otp type).1) =
  if negb (Js.truthy (SENDGRID_API_KEY env)) then
    ([], mkResult false
           (Some "SendGrid is not properly configured. Please check your environment variables."))
  else
    match otpTemplate type otp with
    | None => ([], mkResult false (Some "Invalid email type specified"))
    | Some (subject, html) =>
        let msg :=
          mkMsg email
            (Js.orElse (SENDGRID_FROM_EMAIL env) "noreply@alumniplatform.com")
            subject html in
        ([SgMailSend msg],
         match sgMail_send msg with
         | None => mkResult true None
         | Some err =>
             mkResult false
               (Some (Js.orElse (error_message err) "Failed to send email"))
         end)
    end.
Proof.
  unfold sendOTPEmail, verifySendGridConfig.
  destruct (Js.truthy (SENDGRID_API_KEY env)); simpl; [|done].
  destruct (Js.truthy (SENDGRID_FROM_EMAIL env)); simpl;
    destruct (otpTemplate type otp) as [[subject html]|]; simpl; try done;
    destruct (sgMail_send _) as [err|]; simpl; try done;
    by destruct (error_response err).
Qed.

(** X8.  When [SENDGRID_API_KEY] is unset or empty, [sendOTPEmail] sends
    nothing, whatever the type, and returns the configuration failure. *)
Theorem sendOTPEmail_unconfigured env sgMail_send email otp type :
  Js.truthy (SENDGRID_API_KEY env) = false →
  (sendOTPEmail env sgMail_send email otp type).1 =
    mkResult false
      (Some "SendGrid is not properly configured. Please check your environment variables.") ∧
  List.filter is_send (sendOTPEmail env sgMail_send email otp type).2 = [].
Proof.
  intros Hunset.
  pose proof (sendOTPEmail_summary env sgMail_send email otp type) as Hsum.
  rewrite Hunset in Hsum. simpl in Hsum. by injection Hsum as -> ->.
Qed.

(** X9.  With the API key set and one of the three known types,
    [sendOTPEmail] hands exactly one message to [sgMail.send]: addressed to
    the given e-mail, sent from [SENDGRID_FROM_EMAIL] or, when that is unset
    or empty, from the default sender, with the subject and body of the type.
    It reports success exactly when the send is fulfilled; when the send is
    rejected it reports the message of the error, or
    ['Failed to send email'] when that message is missing or empty. *)
Theorem sendOTPEmail_sends_once env sgMail_send email otp type :
  Js.truthy (SENDGRID_API_KEY env) = true → type ∈ validTypes →
  ∃ msg,
    List.filter is_send (sendOTPEmail env sgMail_send email otp type).2 =
      [SgMailSend msg] ∧
    msg_to msg = email ∧
    msg_from msg =
      (if Js.truthy (SENDGRID_FROM_EMAIL env)
       then default "" (SENDGRID_FROM_EMAIL env)
       else "noreply@alumniplatform.com") ∧
    otpTemplate type otp = Some (msg_subject msg, msg_html msg) ∧
    (sgMail_send msg = None →
       (sendOTPEmail env sgMail_send email otp type).1 = mkResult true None) ∧
    (∀ err, sgMail_send msg = Some err →
       (sendOTPEmail env sgMail_send email otp type).1 =
         mkResult false
           (Some (if Js.truthy (error_message err)
                  then default "" (error_message err)
                  else "Failed to send email"))).
Proof.
  intros Hset Hknown.
  destruct (otpTemplate_known type otp Hknown) as [[subject html] Htemplate].
  pose proof (sendOTPEmail_summary env sgMail_send email otp type) as Hsum.
  rewrite Hset, Htemplate in Hsum. simpl in Hsum.
  injection Hsum as Hsends Hresult. eexists. split; [exact Hsends|].
  rewrite Hresult. simpl. split; [done|]. split; [apply truthy_orElse|].
  split; [done|]. split.
  - by intros ->.
  - intros err ->. by rewrite truthy_orElse.
Qed.

(** X10.  [sendOTPEmail] always answers with a well-formed result: a success
    carries no error, a failure always carries a non-empty error text, and a
    success is reported only after a message was handed to [sgMail.send]. *)
Theorem sendOTPEmail_result_shape env sgMail_send email otp type :
  let result := (sendOTPEmail env sgMail_send email otp type).1 in
  (success result = true → error result = None) ∧
  (success result = false → ∃ text, error result = Some text ∧ text ≠ "") ∧
  (success result = true →
     ∃ msg, List.filter is_send
              (sendOTPEmail env sgMail_send email otp type).2 = [SgMailSend msg] ∧
            sgMail_send msg = None).
Proof.
  pose proof (sendOTPEmail_summary env sgMail_send email otp type) as Hsum.
  destruct (Js.truthy (SENDGRID_API_KEY env)); simpl in Hsum.
  2:{ injection Hsum as -> ->. simpl. split; [done|]. split; [by eexists|done]. }
  destruct (otpTemplate type otp) as [[subject html]|]; simpl in Hsum.
  2:{ injection Hsum as -> ->. simpl. split; [done|]. split; [by eexists|done]. }
  injection Hsum as -> ->. simpl.
  destruct (sgMail_send _) as [err|] eqn:Hsend; simpl.
  - split; [done|]. split; [|done]. intros _. eexists. split; [done|].
    by apply orElse_nonempty.
  - split; [done|]. split; [done|]. intros _. by eexists.
Qed.

(** The console part of what [sendOTPEmail] does. *)
Lemma sendOTPEmail_console env sgMail_send email otp type :
  consoleOnly (sendOTPEmail env sgMail_send email otp type).2 =
  (verifySendGridConfig env).2 ++
  if negb (Js.truthy (SENDGRID_API_KEY env)) then [] else
    match otpTemplate type otp with
    | None => []
    | Some (subject, html) =>
        [ConsoleLog [Text "Attempting to send email to:"; Text email];
         ConsoleLog [Text "Email subject:"; Text subject]] ++
        match sgMail_send
                (mkMsg email
                   (Js.orElse (SENDGRID_FROM_EMAIL env)
                      "noreply@alumniplatform.com")
                   subject html) with
        | None => [ConsoleLog [Text "Email sent successfully"]]
        | Some err =>
            ConsoleError [Text "Email sending failed:"; ErrorObject err] ::
            match error_response err with
            | Some body =>
                [ConsoleError [Text "Error response body:"; ResponseBody body]]
            | None => []
            end
        end
    end.
Proof.
  unfold sendOTPEmail, verifySendGridConfig, consoleOnly.
  destruct (Js.truthy (SENDGRID_API_KEY env)); simpl; [|done].
  destruct (Js.truthy (SENDGRID_FROM_EMAIL env)); simpl;
    destruct (otpTemplate type otp) as [[subject html]|]; simpl; try done;
    destruct (sgMail_send _) as [err|]; simpl; try done;
    by destruct (error_response err).
Qed.

(** The subject of a type does not depend on the password. *)
Lemma otpTemplate_subject type otp otp' :
  fst <$> otpTemplate type otp = fst <$> otpTemplate type otp'.
Proof.
  unfold otpTemplate.
  by destruct (String.eqb type "registration"),
    (String.eqb type "forgot_password"), (String.eqb type "email_verification").
Qed.

Lemma sent_by_sendOTPEmail env sgMail_send email otp type msg :
  List.filter is_send (sendOTPEmail env sgMail_send email otp type).2 =
    [SgMailSend msg] →
  SgMailSend msg ∈ (sendOTPEmail env sgMail_send email otp type).2.
Proof.
  intros Hsends. apply list_elem_of_In.
  apply (proj1 (List.filter_In is_send _ _)). rewrite Hsends. by left.
Qed.

(** X11.  The code of [sendOTPEmail] never passes the one-time password to
    the console: what it prints, and what it returns, is determined by the
    environment, the address, the type and the answer of [sgMail.send].  Two
    calls that differ in the password, and whose sends (if any) are answered
    alike, print the same and return the same; so the password can appear on
    the console only inside the error object of a rejected send. *)
Theorem sendOTPEmail_console_ignores_otp env sgMail_send sgMail_send'
    email otp otp' type :
  (∀ msg msg',
     SgMailSend msg ∈ (sendOTPEmail env sgMail_send email otp type).2 →
     SgMailSend msg' ∈ (sendOTPEmail env sgMail_send' email otp' type).2 →
     sgMail_send msg = sgMail_send' msg') →
  consoleOnly (sendOTPEmail env sgMail_send email otp type).2 =
    consoleOnly (sendOTPEmail env sgMail_send' email otp' type).2 ∧
  (sendOTPEmail env sgMail_send email otp type).1 =
    (sendOTPEmail env sgMail_send' email otp' type).1.
Proof.
  intros Halike.
  pose proof (sendOTPEmail_summary env sgMail_send email otp type) as Hsum.
  pose proof (sendOTPEmail_summary env sgMail_send' email otp' type) as Hsum'.
  pose proof (sent_by_sendOTPEmail env sgMail_send email otp type) as Hsent.
  pose proof (sent_by_sendOTPEmail env sgMail_send' email otp' type) as Hsent'.
  rewrite !sendOTPEmail_console.
  destruct (Js.truthy (SENDGRID_API_KEY env)); simpl in *.
  2:{ injection Hsum as _ ->. by injection Hsum' as _ ->. }
  pose proof (otpTemplate_subject type otp otp') as Hsubject.
  destruct (otpTemplate type otp) as [[subject html]|],
    (otpTemplate type otp') as [[subject' html']|]; simpl in *; try done.
  2:{ injection Hsum as _ ->. by injection Hsum' as _ ->. }
  injection Hsubject as <-.
  injection Hsum as Hsends ->. injection Hsum' as Hsends' ->.
  by rewrite (Halike _ _ (Hsent _ Hsends) (Hsent' _ Hsends')).
Qed.

Lemma append_empty_r (s : string) : s +:+ "" = s.
Proof.
  induction s as [|c s IH]; [done|].
  change (String c s +:+ "") with (String c (s +:+ "")). by rewrite IH.
Qed.

Lemma append_assoc (s1 s2 s3 : string) : (s1 +:+ s2) +:+ s3 = s1 +:+ s2 +:+ s3.
Proof.
  induction s1 as [|c s1 IH]; [done|].
  change ((String c s1 +:+ s2) +:+ s3) with (String c ((s1 +:+ s2) +:+ s3)).
  by rewrite IH.
Qed.

Lemma concat_empty_cons (piece : string) (pieces : list string) :
  String.concat "" (piece :: pieces) = piece +:+ String.concat "" pieces.
Proof.
  destruct pieces as [|next rest]; [|done].
  change (piece = piece +:+ ""). by rewrite append_empty_r.
Qed.

Lemma concat_empty_at (pieces : list string) (i : nat) (piece : string) :
  pieces !! i = Some piece →
  String.concat "" pieces =
  String.concat "" (take i pieces) +:+ piece +:+ String.concat "" (drop (S i) pieces).
Proof.
  revert i. induction pieces as [|first rest IH]; intros [|i] Hi; try done.
  - injection Hi as ->. by rewrite concat_empty_cons.
  - rewrite concat_empty_cons, (IH i Hi).
    change (take (S i) (first :: rest)) with (first :: take i rest).
    change (drop (S (S i)) (first :: rest)) with (drop (S i) rest).
    by rewrite concat_empty_cons, append_assoc.
Qed.

(** X12.  For each of the three known types the body of the message is a
    fixed text around the one-time password, under a subject that does not
    depend on it: the password given by the caller is what the mail shows. *)
Theorem otpTemplate_embeds_otp type :
  type ∈ validTypes →
  ∃ subject before after,
    ∀ otp, otpTemplate type otp = Some (subject, before +:+ otp +:+ after).
Proof.
  unfold validTypes. rewrite !elem_of_cons, elem_of_nil.
  intros [->|[->|[->|[]]]]; eexists _, _, _; intros otp.
  - change (otpTemplate "registration" otp) with
      (Some ("Verify Your Email - Alumni Platform", registrationHtml otp)).
    unfold registrationHtml.
    rewrite (concat_empty_at _ 17 otp) by reflexivity.
    cbn [firstn skipn]. reflexivity.
  - change (otpTemplate "forgot_password" otp) with
      (Some ("Reset Your Password - Alumni Platform", forgotPasswordHtml otp)).
    unfold forgotPasswordHtml.
    rewrite (concat_empty_at _ 17 otp) by reflexivity.
    cbn [firstn skipn]. reflexivity.
  - change (otpTemplate "email_verification" otp) with
      (Some ("Verify Your Email - Alumni Platform", emailVerificationHtml otp)).
    unfold emailVerificationHtml.
    rewrite (concat_empty_at _ 17 otp) by reflexivity.
    cbn [firstn skipn]. reflexivity.
Qed.

End EmailMoreFacts.

(** ** More on [generateOTP] *)

Section OtpFacts.
Import EmailService.
Local Open Scope Z_scope.

Lemma numericValue_six n :
  100000 ≤ n ≤ 999999 → Js.numericValue (Js.toString n) = Some n.
Proof.
  intros Hn.
  destruct (toString_six n Hn)
    as (d5 & d4 & d3 & d2 & d1 & d0 & H5 & H4 & H3 & H2 & H1 & H0 & Hsum & ->).
  unfold Js.numericValue, Js.numericValueFrom.
  rewrite !digitValue_digitChar by lia. f_equal. lia.
Qed.

(** X13.  The password is the decimal rendering of the number drawn and
    reads back as that number, so two passwords are equal exactly when the
    numbers drawn are; and every number from 100000 to 999998 is the password
    of some draw. *)
Theorem generateOTP_reads_back draw draw' n :
  100000 ≤ n ≤ 999998 →
  Js.numericValue (generateOTP draw) = Some (Js.randomInt 100000 999999 draw) ∧
  (generateOTP draw = generateOTP draw' ↔
     Js.randomInt 100000 999999 draw = Js.randomInt 100000 999999 draw') ∧
  ∃ draw0, generateOTP draw0 = Js.toString n ∧
           Js.numericValue (generateOTP draw0) = Some n.
Proof.
  intros Hn.
  assert (∀ d, Js.numericValue (generateOTP d) =
               Some (Js.randomInt 100000 999999 d)) as Hback.
  { intros d. unfold generateOTP. apply numericValue_six.
    pose proof (randomInt_range 100000 999999 d). lia. }
  split; [apply Hback|]. split.
  - split; [|unfold generateOTP; by intros ->].
    intros Heq. pose proof (Hback draw) as Hd. rewrite Heq, Hback in Hd.
    by injection Hd.
  - exists (n - 100000). unfold generateOTP.
    rewrite randomInt_onto by lia. split; [done|]. apply numericValue_six. lia.
Qed.

End OtpFacts.

Lemma generateOTP_reads_back_witness :
  (100000 ≤ 424242 ≤ 999998)%Z ∧
  Js.numericValue (EmailService.generateOTP 7) =
    Some (Js.randomInt 100000 999999 7) ∧
  (EmailService.generateOTP 7 = EmailService.generateOTP 900006 ↔
     Js.randomInt 100000 999999 7 = Js.randomInt 100000 999999 900006) ∧
  ∃ draw0, EmailService.generateOTP draw0 = Js.toString 424242 ∧
           Js.numericValue (EmailService.generateOTP draw0) = Some 424242%Z.
Proof.
  split; [lia|]. apply (generateOTP_reads_back 7 900006 424242). lia.
Defined.

(** ** More on the room layer *)

Section RoomMoreFacts.
Variable socketAuth : option string → option string.
Implicit Types (st : Server) (ev : Event) (evs : list Event)
  (room cid uid conv : string).

Lemma room_prefixes_differ conv uid : "conversation_" +:+ conv ≠ "user_" +:+ uid.
Proof. by cbv [String.append]. Qed.

Lemma personal_room_inj uid uid' : "user_" +:+ uid = "user_" +:+ uid' → uid = uid'.
Proof. apply (inj (String.app "user_")). Qed.

Lemma lookup_rooms_join room cid cid' st :
  Registry.lookup cid' (registry (Rooms.join room cid st)) =
  Registry.lookup cid' (registry st).
Proof.
  unfold Rooms.join. destruct (registry st !! cid) as [c|] eqn:E; [|done].
  unfold Registry.lookup, Registry.enter. simpl. rewrite lookup_alter.
  destruct (decide (cid = cid')) as [<-|]; [|done]. by rewrite E.
Qed.

Lemma lookup_rooms_leave room cid cid' st :
  Registry.lookup cid' (registry (Rooms.leave room cid st)) =
  Registry.lookup cid' (registry st).
Proof.
  unfold Rooms.leave. destruct (registry st !! cid) as [c|] eqn:E; [|done].
  unfold Registry.lookup, Registry.exit. simpl. rewrite lookup_alter.
  destruct (decide (cid = cid')) as [<-|]; [|done]. by rewrite E.
Qed.

Lemma membersOf_rooms_join_other room room' cid st :
  room ≠ room' →
  Rooms.membersOf room' (Rooms.join room cid st) = Rooms.membersOf room' st.
Proof.
  intros Hne. unfold Rooms.join. destruct (registry st !! cid); [|done].
  unfold Rooms.membersOf. simpl. by rewrite membersOf_join, decide_False.
Qed.

Lemma membersOf_rooms_leave_other room room' cid st :
  room ≠ room' →
  Rooms.membersOf room' (Rooms.leave room cid st) = Rooms.membersOf room' st.
Proof.
  intros Hne. unfold Rooms.leave. destruct (registry st !! cid); [|done].
  unfold Rooms.membersOf. simpl. by rewrite membersOf_leave, decide_False.
Qed.

Lemma step_conversation_state cid conv st :
  (step socketAuth (EJoinConversation cid conv) st).1 =
    Rooms.join ("conversation_" +:+ conv) cid st ∧
  (step socketAuth (ELeaveConversation cid conv) st).1 =
    Rooms.leave ("conversation_" +:+ conv) cid st.
Proof.
  simpl. unfold withSocket, Rooms.join, Rooms.leave.
  destruct (registry st !! cid) eqn:E; simpl; [|done].
  unfold Rooms.join, Rooms.leave. by rewrite E.
Qed.

(** X14.  The conversation requests cannot touch a personal room: whatever
    the state, the connection and the conversation identifier sent, a
    [joinConversation] or [leaveConversation] leaves the member set of every
    room [user_<userId>] and the owner of every connection as they were. *)
Theorem conversation_requests_spare_personal_rooms st cid conv uid cid' :
  let joined := (step socketAuth (EJoinConversation cid conv) st).1 in
  let left := (step socketAuth (ELeaveConversation cid conv) st).1 in
  Rooms.membersOf ("user_" +:+ uid) joined = Rooms.membersOf ("user_" +:+ uid) st ∧
  Rooms.membersOf ("user_" +:+ uid) left = Rooms.membersOf ("user_" +:+ uid) st ∧
  Registry.lookup cid' (registry joined) = Registry.lookup cid' (registry st) ∧
  Registry.lookup cid' (registry left) = Registry.lookup cid' (registry st).
Proof.
  intros joined left. subst joined left.
  destruct (step_conversation_state cid conv st) as [-> ->].
  split; [apply membersOf_rooms_join_other, room_prefixes_differ|].
  split; [apply membersOf_rooms_leave_other, room_prefixes_differ|].
  split; [apply lookup_rooms_join|apply lookup_rooms_leave].
Qed.

Lemma step_personal ev st :
  Rooms.consistent st → personalRoomsExact st →
  personalRoomsExact (step socketAuth ev st).1.
Proof.
  intros Hc Hp cid' uid.
  destruct ev as [cid token|cid conv|cid conv|cid|room kind payload];
    [| | | |apply Hp].
  - change (step socketAuth (EConnect cid token) st)
      with (connect socketAuth cid token st).
    destruct (socketAuth token) as [uid0|] eqn:Hauth;
      [|rewrite (connect_refused socketAuth) by done; apply Hp].
    destruct (registry st !! cid) as [c|] eqn:E.
    { unfold connect, Rooms.register, Registry.register.
      rewrite Hauth, E. apply Hp. }
    rewrite (connect_accepted socketAuth cid token uid0) by done.
    simpl. rewrite lookup_rooms_join. unfold Rooms.join. simpl.
    rewrite lookup_insert_eq. unfold Rooms.membersOf, Registry.lookup. simpl.
    rewrite membersOf_join, lookup_insert.
    pose proof (unregistered_no_member cid ("user_" +:+ uid) st (proj1 Hc) E) as Hno.
    specialize (Hp cid' uid). unfold Rooms.membersOf, Registry.lookup in *.
    destruct (decide (cid = cid')) as [<-|Hne]; simpl.
    + destruct (decide ("user_" +:+ uid0 = "user_" +:+ uid)) as [Heq|Hneq].
      * apply personal_room_inj in Heq as ->. set_solver.
      * split; [done|]. intros [= ->]. done.
    + destruct (decide ("user_" +:+ uid0 = "user_" +:+ uid)) as [Heq|Hneq];
        [|done].
      rewrite <-Heq in *. set_solver.
  - destruct (step_conversation_state cid conv st) as [-> _].
    rewrite lookup_rooms_join, membersOf_rooms_join_other
      by apply room_prefixes_differ. apply Hp.
  - destruct (step_conversation_state cid conv st) as [_ ->].
    rewrite lookup_rooms_leave, membersOf_rooms_leave_other
      by apply room_prefixes_differ. apply Hp.
  - change (step socketAuth (EDisconnect cid) st) with (close cid st).
    rewrite close_state. destruct (registry st !! cid) as [c|] eqn:E; [|apply Hp].
    rewrite membersOf_disconnect by apply Hc.
    unfold Registry.lookup. rewrite registry_disconnect, lookup_delete.
    specialize (Hp cid' uid). unfold Registry.lookup in Hp.
    destruct (decide (cid = cid')) as [<-|]; simpl; [set_solver|].
    rewrite <-Hp. set_solver.
Qed.

Lemma run_personal evs st :
  Rooms.consistent st → personalRoomsExact st →
  personalRoomsExact (run socketAuth evs st).1.
Proof.
  revert st. induction evs as [|ev evs IH]; intros st Hc Hp; [done|].
  simpl. rewrite andThen_fst.
  apply IH; [by apply step_consistent|by apply step_personal].
Qed.

(** X15.  In every state the server can reach, the room [user_<userId>]
    holds exactly the live connections that authenticated as that user: no
    connection of another user is ever in it, and none of the user's own is
    missing from it. *)
Theorem personal_rooms_hold_exactly_the_user st :
  reachable socketAuth st → personalRoomsExact st.
Proof.
  intros [evs <-]. apply run_personal; [apply consistent_initial|].
  intros cid uid. unfold Rooms.membersOf, Index.membersOf, Registry.lookup.
  simpl. rewrite !lookup_empty. simpl. set_solver.
Qed.

Lemma index_leave_join room cid (idx : gmap string (gset string)) :
  Index.wf idx → cid ∉ Index.membersOf room idx →
  Index.leave room cid (Index.join room cid idx) = idx.
Proof.
  intros Hwf Hnot. apply map_eq. intros room'. rewrite lookup_leave.
  unfold Index.join. rewrite !lookup_insert.
  destruct (decide (room = room')) as [<-|]; [|done].
  rewrite decide_True by done. simpl. unfold Index.without, Index.membersOf in *.
  assert ((default ∅ (idx !! room) ∪ {[cid]}) ∖ {[cid]} = default ∅ (idx !! room))
    as -> by set_solver.
  destruct (idx !! room) as [members|] eqn:E; simpl.
  - rewrite decide_False; [done|]. intros ->. by destruct (Hwf room).
  - by rewrite decide_True.
Qed.

Lemma index_join_leave room cid (idx : gmap string (gset string)) :
  cid ∈ Index.membersOf room idx →
  Index.join room cid (Index.leave room cid idx) = idx.
Proof.
  intros Hin. apply map_eq. intros room'. unfold Index.join.
  rewrite membersOf_leave, decide_True by done. rewrite lookup_insert.
  destruct (decide (room = room')) as [<-|]; [|by rewrite lookup_leave, decide_False].
  unfold Index.membersOf in *.
  destruct (idx !! room) as [members|]; simpl in *; [|set_solver].
  f_equal. apply set_eq. intros x. rewrite elem_of_union, elem_of_difference,
    elem_of_singleton. destruct (decide (x = cid)) as [->|]; naive_solver.
Qed.

(** X16.  Connecting and then disconnecting is a round trip: from a
    consistent state, a new connection that authenticates and then closes
    leaves the registry and the index exactly as they were, and the console
    shows the two lines of the handlers around the one join. *)
Theorem connect_disconnect_round_trip st cid token uid :
  Rooms.consistent st → registry st !! cid = None →
  socketAuth token = Some uid →
  run socketAuth [EConnect cid token; EDisconnect cid] st =
    (st, [ALog ("User " +:+ uid +:+ " connected");
          AJoin cid ("user_" +:+ uid);
          ALog ("User " +:+ uid +:+ " disconnected")]).
Proof.
  intros [Hsym Hwf] Hnew Hauth. simpl. unfold andThen at 1.
  rewrite (connect_accepted socketAuth cid token uid) by done.
  unfold andThen, skip, close, withSocket, Rooms.join. simpl.
  rewrite lookup_insert_eq. simpl.
  unfold Registry.enter. rewrite lookup_alter_eq, lookup_insert_eq. simpl.
  f_equal. destruct st as [reg idx]. simpl in *.
  unfold Rooms.disconnect, Rooms.unregister, Registry.unregister. simpl.
  rewrite lookup_alter_eq, lookup_insert_eq. simpl. f_equal.
  - apply map_eq. intros cid'. rewrite lookup_delete, lookup_alter, lookup_insert.
    destruct (decide (cid = cid')) as [<-|]; [done|].
    by rewrite lookup_insert_ne.
  - assert ((∅ : gset string) ∪ {["user_" +:+ uid]} = {["user_" +:+ uid]})
      as -> by set_solver.
    unfold Rooms.evict. rewrite set_fold_singleton.
    apply index_leave_join; [done|].
    apply (unregistered_no_member cid ("user_" +:+ uid) (mkServer reg idx));
      done.
Qed.

Lemma run_two ev1 ev2 st :
  (run socketAuth [ev1; ev2] st).1 =
  (step socketAuth ev2 (step socketAuth ev1 st).1).1.
Proof.
  change (run socketAuth [ev1; ev2] st)
    with ((step socketAuth ev1 >>> step socketAuth ev2 >>> skip) st).
  by rewrite !andThen_fst.
Qed.

(** X17.  Joining and leaving a conversation room undo each other: for a
    live connection in a consistent state, [joinConversation] followed by
    [leaveConversation] restores the state when the connection was not in the
    room, and [leaveConversation] followed by [joinConversation] restores it
    when the connection was. *)
Theorem join_leave_round_trip st cid c conv :
  Rooms.consistent st → registry st !! cid = Some c →
  (cid ∉ Rooms.membersOf ("conversation_" +:+ conv) st →
     (run socketAuth [EJoinConversation cid conv; ELeaveConversation cid conv]
        st).1 = st) ∧
  (cid ∈ Rooms.membersOf ("conversation_" +:+ conv) st →
     (run socketAuth [ELeaveConversation cid conv; EJoinConversation cid conv]
        st).1 = st).
Proof.
  intros [Hsym Hwf] Hlive.
  pose proof (proj1 (symmetric_alt st) Hsym cid ("conversation_" +:+ conv))
    as Hboth.
  unfold Rooms.roomsOf, Registry.roomsOf, Rooms.membersOf in Hboth.
  rewrite Hlive in Hboth. simpl in Hboth.
  split; intros Hmember.
  - rewrite run_two.
    destruct (step_conversation_state cid conv st) as [-> _].
    destruct (step_conversation_state cid conv
                (Rooms.join ("conversation_" +:+ conv) cid st)) as [_ ->].
    unfold Rooms.leave, Rooms.join. rewrite Hlive. simpl.
    unfold Registry.enter at 1. rewrite lookup_alter_eq, Hlive. simpl.
    destruct st as [reg idx]. simpl in *. f_equal.
    + apply map_eq. intros cid'. unfold Registry.exit, Registry.enter.
      rewrite !lookup_alter.
      destruct (decide (cid = cid')) as [<-|]; [|done].
      rewrite ?decide_True by done. rewrite ?Hlive. simpl. f_equal.
      destruct c as [owner rs]. simpl in *. f_equal. unfold Rooms.membersOf in Hmember. simpl in Hmember. set_solver.
    + by apply index_leave_join.
  - rewrite run_two.
    destruct (step_conversation_state cid conv st) as [_ ->].
    destruct (step_conversation_state cid conv
                (Rooms.leave ("conversation_" +:+ conv) cid st)) as [-> _].
    unfold Rooms.join, Rooms.leave. rewrite Hlive. simpl.
    unfold Registry.exit at 1. rewrite lookup_alter_eq, Hlive. simpl.
    destruct st as [reg idx]. simpl in *. f_equal.
    + apply map_eq. intros cid'. unfold Registry.exit, Registry.enter.
      rewrite !lookup_alter.
      destruct (decide (cid = cid')) as [<-|]; [|done].
      rewrite ?decide_True by done. rewrite ?Hlive. simpl. f_equal.
      destruct c as [owner rs]. simpl in *. f_equal. unfold Rooms.membersOf in Hmember. simpl in Hmember.
      apply set_eq. intros x. rewrite elem_of_union, elem_of_difference,
        elem_of_singleton.
      destruct (decide (x = "conversation_" +:+ conv)) as [->|]; naive_solver.
    + by apply index_join_leave.
Qed.

(** X18.  In every state the server can reach, the index holds no empty
    room, and every member of every room is a live connection that lists the
    room among its own. *)
Theorem reachable_index_has_only_live_members st room
    (members : gset string) :
  reachable socketAuth st → index st !! room = Some members →
  members ≠ ∅ ∧
  ∀ cid, cid ∈ members →
    ∃ c, registry st !! cid = Some c ∧ room ∈ rooms c.
Proof.
  intros Hreach Hroom.
  destruct (reachable_consistent socketAuth st Hreach) as [Hsym Hwf].
  split; [intros ->; by destruct (Hwf room)|].
  intros cid Hin. apply Hsym. by exists members.
Qed.

End RoomMoreFacts.

(** ** The further properties at concrete inputs *)

Lemma environmentInfo_hides_secrets_witness :
  Deployment.production !! "NODE_ENV" = Deployment.rotated !! "NODE_ENV" ∧
  Deployment.production !! "FRONTEND_URL" = Deployment.rotated !! "FRONTEND_URL" ∧
  Deployment.production !! "EMAIL_SERVICE" = Deployment.rotated !! "EMAIL_SERVICE" ∧
  Js.truthy (Deployment.production !! "MONGO_URI") =
    Js.truthy (Deployment.rotated !! "MONGO_URI") ∧
  ServerEntry.environmentInfo Deployment.production "v20.11.0" =
    ServerEntry.environmentInfo Deployment.rotated "v20.11.0" ∧
  (ServerEntry.verifyEnvironment Deployment.production = [] →
     ServerEntry.ConsoleLog ["- Database:"; "Configured"] ∈
       ServerEntry.environmentInfo Deployment.production "v20.11.0").
Proof.
  do 4 (split; [by vm_compute|]).
  apply (environmentInfo_hides_secrets Deployment.production Deployment.rotated
           "v20.11.0"); by vm_compute.
Defined.

Lemma connectDB_without_uri_witness :
  Js.truthy (Deployment.unconfigured !! "MONGO_URI") = false ∧
  Database.connectDB Deployment.unconfigured Deployment.mongoose_up =
    (Database.Exited 1,
     [Database.ConsoleError ["Database connection failed:";
        "MongoDB connection string is not defined. Please set MONGO_URI environment variable."];
      Database.ConsoleError ["Connection URI used:"; "Not set"];
      Database.ProcessExit 1]) ∧
  List.filter Database.is_connect
    (Database.connectDB Deployment.unconfigured Deployment.mongoose_up).2 = [].
Proof.
  split; [by vm_compute|].
  apply (connectDB_without_uri Deployment.unconfigured Deployment.mongoose_up).
  by vm_compute.
Defined.

Lemma connectDB_with_uri_witness :
  Deployment.production !! "MONGO_URI" = Some "mongodb://db.internal/alumni" ∧
  "mongodb://db.internal/alumni" ≠ "" ∧
  List.filter Database.is_connect
    (Database.connectDB Deployment.production Deployment.mongoose_up).2 =
    [Database.MongooseConnect "mongodb://db.internal/alumni"
       (Database.mkConnectOptions true true 5000 45000)] ∧
  (∀ conn,
     Deployment.mongoose_up "mongodb://db.internal/alumni" Database.options
       = inl conn →
     (Database.connectDB Deployment.production Deployment.mongoose_up).1
       = Database.Returned conn ∧
     Database.ConnectionOn "error" ∈
       (Database.connectDB Deployment.production Deployment.mongoose_up).2 ∧
     Database.ConnectionOn "disconnected" ∈
       (Database.connectDB Deployment.production Deployment.mongoose_up).2 ∧
     Database.ProcessExit 1 ∉
       (Database.connectDB Deployment.production Deployment.mongoose_up).2) ∧
  (∀ message,
     Deployment.mongoose_up "mongodb://db.internal/alumni" Database.options
       = inr message →
     (Database.connectDB Deployment.production Deployment.mongoose_up).1
       = Database.Exited 1 ∧
     Database.ProcessExit 1 ∈
       (Database.connectDB Deployment.production Deployment.mongoose_up).2 ∧
     (∀ event, Database.ConnectionOn event ∉
        (Database.connectDB Deployment.production Deployment.mongoose_up).2)).
Proof.
  split; [by vm_compute|]. split; [done|].
  apply (connectDB_with_uri Deployment.production Deployment.mongoose_up
           "mongodb://db.internal/alumni"); [by vm_compute|done].
Defined.

Lemma connectDB_console_output_witness :
  Deployment.production !! "MONGO_URI" = Some "mongodb://db.internal/alumni" ∧
  "mongodb://db.internal/alumni" ≠ "" ∧
  List.filter Database.is_console
    (Database.connectDB Deployment.production Deployment.mongoose_up).2 =
    Database.ConsoleLog ["Connecting to MongoDB..."] ::
    match Deployment.mongoose_up "mongodb://db.internal/alumni" Database.options
    with
    | inl conn =>
        [Database.ConsoleLog
           ["MongoDB Connected: " +:+ Database.connection_host conn];
         Database.ConsoleLog
           ["Database Name: " +:+ Database.connection_name conn]]
    | inr message =>
        [Database.ConsoleError ["Database connection failed:"; message];
         Database.ConsoleError ["Connection URI used:"; "[HIDDEN]"]]
    end ∧
  ∀ env' mongoose_connect' uri',
    env' !! "MONGO_URI" = Some uri' → uri' ≠ "" →
    mongoose_connect' uri' Database.options =
      Deployment.mongoose_up "mongodb://db.internal/alumni" Database.options →
    List.filter Database.is_console
      (Database.connectDB env' mongoose_connect').2 =
      List.filter Database.is_console
        (Database.connectDB Deployment.production Deployment.mongoose_up).2 ∧
    (Database.connectDB env' mongoose_connect').1 =
      (Database.connectDB Deployment.production Deployment.mongoose_up).1.
Proof.
  split; [by vm_compute|]. split; [done|].
  apply (connectDB_console_output Deployment.production Deployment.mongoose_up
           "mongodb://db.internal/alumni"); [by vm_compute|done].
Defined.

(** A driver whose error message names the URI does put it on the console:
    the message is printed as it comes. *)
Example connectDB_prints_driver_message :
  List.filter Database.is_console
    (Database.connectDB Deployment.production
       (λ uri _, inr ("connect ECONNREFUSED " +:+ uri))).2 =
    [Database.ConsoleLog ["Connecting to MongoDB..."];
     Database.ConsoleError
       ["Database connection failed:";
        "connect ECONNREFUSED mongodb://db.internal/alumni"];
     Database.ConsoleError ["Connection URI used:"; "[HIDDEN]"]].
Proof. by vm_compute. Qed.

Lemma connectDB_after_verifyEnvironment_witness :
  ServerEntry.verifyEnvironment Deployment.production = [] ∧
  ∃ uri, Deployment.production !! "MONGO_URI" = Some uri ∧ uri ≠ "" ∧
    List.filter Database.is_connect
      (Database.connectDB Deployment.production Deployment.mongoose_up).2 =
      [Database.MongooseConnect uri Database.options].
Proof.
  split; [by vm_compute|].
  apply (connectDB_after_verifyEnvironment Deployment.production
           Deployment.mongoose_up). by vm_compute.
Defined.

Lemma sendOTPEmail_unconfigured_witness :
  Js.truthy (EmailService.SENDGRID_API_KEY Deployment.mailUnconfigured) = false ∧
  (EmailService.sendOTPEmail Deployment.mailUnconfigured (λ _, None)
     "user@example.com" "123456" "registration").1 =
    EmailService.mkResult false
      (Some "SendGrid is not properly configured. Please check your environment variables.") ∧
  List.filter EmailService.is_send
    (EmailService.sendOTPEmail Deployment.mailUnconfigured (λ _, None)
       "user@example.com" "123456" "registration").2 = [].
Proof.
  split; [reflexivity|].
  apply (sendOTPEmail_unconfigured Deployment.mailUnconfigured (λ _, None)
           "user@example.com" "123456" "registration"). reflexivity.
Defined.

Lemma registration_is_valid : "registration" ∈ EmailService.validTypes.
Proof. unfold EmailService.validTypes. set_solver. Qed.

Lemma sendOTPEmail_sends_once_witness :
  Js.truthy (EmailService.SENDGRID_API_KEY Deployment.mail) = true ∧
  "registration" ∈ EmailService.validTypes ∧
  ∃ msg,
    List.filter EmailService.is_send
      (EmailService.sendOTPEmail Deployment.mail (λ _, None)
         "user@example.com" "123456" "registration").2 =
      [EmailService.SgMailSend msg] ∧
    EmailService.msg_to msg = "user@example.com" ∧
    EmailService.msg_from msg =
      (if Js.truthy (EmailService.SENDGRID_FROM_EMAIL Deployment.mail)
       then default "" (EmailService.SENDGRID_FROM_EMAIL Deployment.mail)
       else "noreply@alumniplatform.com") ∧
    EmailService.otpTemplate "registration" "123456" =
      Some (EmailService.msg_subject msg, EmailService.msg_html msg) ∧
    ((λ _ : EmailService.Msg, @None EmailService.SendError) msg = None →
       (EmailService.sendOTPEmail Deployment.mail (λ _, None)
          "user@example.com" "123456" "registration").1 =
         EmailService.mkResult true None) ∧
    (∀ err, (λ _ : EmailService.Msg, @None EmailService.SendError) msg = Some err →
       (EmailService.sendOTPEmail Deployment.mail (λ _, None)
          "user@example.com" "123456" "registration").1 =
         EmailService.mkResult false
           (Some (if Js.truthy (EmailService.error_message err)
                  then default "" (EmailService.error_message err)
                  else "Failed to send email"))).
Proof.
  split; [reflexivity|]. split; [exact registration_is_valid|].
  exact (sendOTPEmail_sends_once Deployment.mail (λ _, None)
           "user@example.com" "123456" "registration" eq_refl
           registration_is_valid).
Defined.

Lemma sendOTPEmail_console_ignores_otp_witness :
  let rejectNamingRecipient := λ msg : EmailService.Msg,
    Some (EmailService.mkSendError
            (Some ("Mailbox unavailable: " +:+ EmailService.msg_to msg)) None) in
  (∀ msg msg',
     EmailService.SgMailSend msg ∈
       (EmailService.sendOTPEmail Deployment.mail rejectNamingRecipient
          "user@example.com" "123456" "registration").2 →
     EmailService.SgMailSend msg' ∈
       (EmailService.sendOTPEmail Deployment.mail rejectNamingRecipient
          "user@example.com" "654321" "registration").2 →
     rejectNamingRecipient msg = rejectNamingRecipient msg') ∧
  consoleOnly
    (EmailService.sendOTPEmail Deployment.mail rejectNamingRecipient
       "user@example.com" "123456" "registration").2 =
    consoleOnly
      (EmailService.sendOTPEmail Deployment.mail rejectNamingRecipient
         "user@example.com" "654321" "registration").2 ∧
  (EmailService.sendOTPEmail Deployment.mail rejectNamingRecipient
     "user@example.com" "123456" "registration").1 =
    (EmailService.sendOTPEmail Deployment.mail rejectNamingRecipient
       "user@example.com" "654321" "registration").1.
Proof.
  intros rejectNamingRecipient.
  assert (∀ otp msg,
    EmailService.SgMailSend msg ∈
      (EmailService.sendOTPEmail Deployment.mail rejectNamingRecipient
         "user@example.com" otp "registration").2 →
    EmailService.msg_to msg = "user@example.com") as Hto.
  { intros otp msg Hin. apply list_elem_of_In in Hin.
    pose proof (proj2 (List.filter_In EmailService.is_send _ _)
                  (conj Hin eq_refl)) as Hsent.
    pose proof (sendOTPEmail_summary Deployment.mail rejectNamingRecipient
                  "user@example.com" otp "registration") as Hsum.
    change (Js.truthy (EmailService.SENDGRID_API_KEY Deployment.mail))
      with true in Hsum.
    change (EmailService.otpTemplate "registration" otp)
      with (Some ("Verify Your Email - Alumni Platform",
                  EmailService.registrationHtml otp)) in Hsum.
    cbv beta iota zeta delta [negb] in Hsum.
    pose proof (f_equal fst Hsum) as Hsends. cbn [fst] in Hsends.
    rewrite Hsends in Hsent. destruct Hsent as [[= <-]|[]]. reflexivity. }
  assert (∀ msg msg',
     EmailService.SgMailSend msg ∈
       (EmailService.sendOTPEmail Deployment.mail rejectNamingRecipient
          "user@example.com" "123456" "registration").2 →
     EmailService.SgMailSend msg' ∈
       (EmailService.sendOTPEmail Deployment.mail rejectNamingRecipient
          "user@example.com" "654321" "registration").2 →
     rejectNamingRecipient msg = rejectNamingRecipient msg') as Halike.
  { intros msg msg' Hin Hin'. unfold rejectNamingRecipient.
    by rewrite (Hto _ _ Hin), (Hto _ _ Hin'). }
  split; [exact Halike|].
  exact (sendOTPEmail_console_ignores_otp Deployment.mail rejectNamingRecipient
           rejectNamingRecipient "user@example.com" "123456" "654321"
           "registration" Halike).
Defined.

(** A rejected send whose error quotes the body does put the password on the
    console: the error object is printed as it comes. *)
Example sendOTPEmail_prints_send_error :
  let rejectQuotingBody := λ msg : EmailService.Msg,
    Some (EmailService.mkSendError (Some "Bad Request")
            (Some (EmailService.msg_html msg))) in
  EmailService.ConsoleError
    [EmailService.Text "Error response body:";
     EmailService.ResponseBody (EmailService.registrationHtml "123456")] ∈
  (EmailService.sendOTPEmail Deployment.mail rejectQuotingBody
     "user@example.com" "123456" "registration").2.
Proof.
  intros rejectQuotingBody. apply list_elem_of_In.
  vm_compute. repeat (first [by left | right]).
Qed.

Lemma otpTemplate_embeds_otp_witness :
  "registration" ∈ EmailService.validTypes ∧
  ∃ subject before after,
    ∀ otp, EmailService.otpTemplate "registration" otp =
           Some (subject, before +:+ otp +:+ after).
Proof.
  split; [exact registration_is_valid|].
  exact (otpTemplate_embeds_otp "registration" registration_is_valid).
Defined.

Lemma personal_rooms_hold_exactly_the_user_witness :
  reachable Scenario.socketAuth Scenario.twoRooms ∧
  personalRoomsExact Scenario.twoRooms.
Proof.
  split; [apply scenario_reachable|].
  apply (personal_rooms_hold_exactly_the_user Scenario.socketAuth),
    scenario_reachable.
Defined.

(** Both connections of [U2] and no other are in [user_U2]. *)
Example personal_room_of_U2 :
  Rooms.membersOf "user_U2" Scenario.twoRooms = {["B"; "C"]} ∧
  Rooms.membersOf "user_U1" Scenario.twoRooms = {["A"]}.
Proof. split; by vm_compute. Qed.

Lemma connect_disconnect_round_trip_witness :
  Rooms.consistent Scenario.connectedA ∧
  registry Scenario.connectedA !! "B" = None ∧
  Scenario.socketAuth (Some "token-U2") = Some "U2" ∧
  run Scenario.socketAuth [EConnect "B" (Some "token-U2"); EDisconnect "B"]
      Scenario.connectedA =
    (Scenario.connectedA,
     [ALog ("User " +:+ "U2" +:+ " connected");
      AJoin "B" ("user_" +:+ "U2");
      ALog ("User " +:+ "U2" +:+ " disconnected")]).
Proof.
  assert (Rooms.consistent Scenario.connectedA) as Hc.
  { apply (reachable_consistent Scenario.socketAuth), scenario_reachable. }
  split; [exact Hc|]. split; [by vm_compute|]. split; [reflexivity|].
  apply (connect_disconnect_round_trip Scenario.socketAuth Scenario.connectedA
           "B" (Some "token-U2") "U2" Hc); [by vm_compute|reflexivity].
Defined.

Lemma join_leave_round_trip_witness :
  Rooms.consistent Scenario.connectedA ∧
  registry Scenario.connectedA !! "A" = Some (mkConnection "U1" {["user_U1"]}) ∧
  ("A" ∉ Rooms.membersOf ("conversation_" +:+ "c7") Scenario.connectedA →
     (run Scenario.socketAuth
        [EJoinConversation "A" "c7"; ELeaveConversation "A" "c7"]
        Scenario.connectedA).1 = Scenario.connectedA) ∧
  ("A" ∈ Rooms.membersOf ("conversation_" +:+ "c7") Scenario.connectedA →
     (run Scenario.socketAuth
        [ELeaveConversation "A" "c7"; EJoinConversation "A" "c7"]
        Scenario.connectedA).1 = Scenario.connectedA).
Proof.
  assert (Rooms.consistent Scenario.connectedA) as Hc.
  { apply (reachable_consistent Scenario.socketAuth), scenario_reachable. }
  split; [exact Hc|]. split; [by vm_compute|].
  apply (join_leave_round_trip Scenario.socketAuth Scenario.connectedA "A"
           (mkConnection "U1" {["user_U1"]}) "c7" Hc). by vm_compute.
Defined.

Lemma reachable_index_has_only_live_members_witness :
  reachable Scenario.socketAuth Scenario.twoRooms ∧
  index Scenario.twoRooms !! "conversation_c8" = Some {["B"; "C"]} ∧
  ({["B"; "C"]} : gset string) ≠ ∅ ∧
  ∀ cid, cid ∈ ({["B"; "C"]} : gset string) →
    ∃ c, registry Scenario.twoRooms !! cid = Some c ∧
         "conversation_c8" ∈ rooms c.
Proof.
  split; [apply scenario_reachable|]. split; [by vm_compute|].
  apply (reachable_index_has_only_live_members Scenario.socketAuth
           Scenario.twoRooms "conversation_c8" {["B"; "C"]});
    [apply scenario_reachable|by vm_compute].
Defined.
